(** * Adaptive dual-LED lighting controller: a verification development

  The repository holds two programs:

  - [AdaptiveDualLED_TCS34725.ino], an Arduino sketch whose [loop()] reads
    a colour sensor and drives a yellow and a white LED (the
    comfort-band controller);
  - [Specification.cpp], a SystemC model whose [LampModule::adjust_lamps]
    splits a target illuminance between the two LEDs from a colour
    temperature, and whose [ECRL_System::control_logic] saturates the
    measured illuminance.

  Both compute on the C type [float].  The embedding below keeps that
  arithmetic: a [float] is an IEEE-754 binary32 number, every operation is
  the correctly rounded one (to nearest, ties to even) of the Standard
  Library's [SpecFloat] at precision 24 and exponent bound 128, and
  integers remain integers.

  - The sketch is read as on the AVR boards it is written for (PWM pins 9
    and 10, 8-bit levels): there [double] is binary32 as well, so the
    literals [0.9], [0.58], [0.62], [0.1], [0.6] and [0.5] and every
    intermediate result are binary32 numbers.
  - In the SystemC model the one [double] operation, [1.0 - factor], has a
    binary32 operand and its result is stored in a [float]: rounding the
    binary64 difference to binary32 gives the binary32 difference.

  Layout: the binary32 layer, the Arduino macros, the sketch, the SystemC
  model; then the properties, first of the arithmetic, then of the two
  programs. *)

From Stdlib Require Import ZArith Bool List Lia SpecFloat.
Import ListNotations.
Local Open Scope Z_scope.

(** ** IEEE-754 binary32 *)

Module F32.

Definition prec : Z := 24.
Definition emax : Z := 128.

Definition float : Type := spec_float.

Definition add : float -> float -> float := SFadd prec emax.
Definition sub : float -> float -> float := SFsub prec emax.
Definition mul : float -> float -> float := SFmul prec emax.
Definition div : float -> float -> float := SFdiv prec emax.

Definition ltb : float -> float -> bool := SFltb.
Definition leb : float -> float -> bool := SFleb.
Definition eqb : float -> float -> bool := SFeqb.

(** Conversion of an integer, [(float)n]. *)
Definition of_Z (n : Z) : float := binary_normalize prec emax n 0 false.

(** Conversion to an integer type, [(long)x]: the fractional part is
    discarded.  C leaves the conversion of an infinity or a NaN undefined;
    they are sent to [0] here and no path of the programs reaches them. *)
Definition to_Z (x : float) : Z :=
  match x with
  | S754_finite s m e => cond_Zopp s (Z.shiftl (Zpos m) e)
  | _ => 0
  end.

(** A decimal literal [p/q] with few digits is the binary32 number nearest
    to the quotient, which is what the correctly rounded division of the
    two (exactly represented) integers returns. *)
Definition dec (p q : Z) : float := div (of_Z p) (of_Z q).

(** The number [h/2], for an integer count [h] of halves: the sensor
    estimates and the sums built from them are all of this form. *)
Definition half_units (h : Z) : float :=
  binary_normalize prec emax h (-1) false.

(** Number of binary digits of a mantissa. *)
Definition digits (p : positive) : Z := Zpos (digits2_pos p).

Definition zero : float := S754_zero false.
Definition one : float := Eval vm_compute in of_Z 1.
Definition neg_one : float := Eval vm_compute in of_Z (-1).
Definition two : float := Eval vm_compute in of_Z 2.
Definition half : float := Eval vm_compute in dec 1 2.

Definition is_finite (x : float) : bool :=
  match x with
  | S754_zero _ | S754_finite _ _ _ => true
  | _ => false
  end.

(** The floats a C object of type [float] can hold. *)
Definition valid (x : float) : bool := valid_binary prec emax x.

End F32.

(** ** The Arduino core macros used by the sketch

  [min], [round] and [constrain] come from the core's [Arduino.h], which is
  not among the repository's files. *)

Module Arduino.

(** Modelled from the spec: the Arduino core macro
    [min(a,b) ((a)<(b)?(a):(b))], used on the raw sensor counts. *)
Definition min (a b : Z) : Z := if a <? b then a else b.

(** Modelled from the spec: the Arduino core macro
    [round(x) ((x)>=0?(long)((x)+0.5):(long)((x)-0.5))], the spec's
    [round]. *)
Definition round (x : F32.float) : Z :=
  if F32.leb F32.zero x then F32.to_Z (F32.add x F32.half)
  else F32.to_Z (F32.sub x F32.half).

(** Modelled from the spec: the Arduino core macro
    [constrain(amt,low,high) ((amt)<(low)?(low):((amt)>(high)?(high):(amt)))],
    the spec's [clamp(_, 0, max)]. *)
Definition constrain (amt low high : Z) : Z :=
  if amt <? low then low else if amt >? high then high else amt.

End Arduino.

(** ** The sketch [AdaptiveDualLED_TCS34725.ino] *)

Module LED.
Import Arduino.

(** System settings (the sketch's global constants). *)
Definition targetYellowRatio : F32.float := Eval vm_compute in F32.dec 6 10.
Definition L_min : F32.float := Eval vm_compute in F32.of_Z 150.
Definition L_max : F32.float := Eval vm_compute in F32.of_Z 1000.
Definition maxLEDIntensity : Z := 255.
Definition default_k : Z := 50.

(** Constants local to [loop()]: [hysteresis] and [scalingFactor] are
    declared there; the band limits [0.58] and [0.62], the gain [0.1] and
    the cutoff [5] are written in place.  The literal [0.6] of the comfort
    branch is the value of [targetYellowRatio]. *)
Definition hysteresis : F32.float := Eval vm_compute in F32.of_Z 2.
Definition scalingFactor : F32.float := Eval vm_compute in F32.dec 9 10.
Definition band_low : F32.float := Eval vm_compute in F32.dec 58 100.
Definition band_high : F32.float := Eval vm_compute in F32.dec 62 100.
Definition gain : F32.float := Eval vm_compute in F32.dec 1 10.
Definition cutoff : Z := 5.

(** State memory: the three globals that survive from one call of
    [loop()] to the next. *)
Record State : Type := mkState {
  prevYellowLED : Z;
  prevWhiteLED : Z;
  inFallbackMode : bool
}.

(** The raw counts [tcs.getRawData(&r, &g, &b, &c)] stores, each a
    [uint16_t]. *)
Record Reading : Type := mkReading { r : Z; g : Z; b : Z; c : Z }.

(** The two values handed to [analogWrite]. *)
Record DriveCommand : Type := mkCommand {
  yellowLevel : Z;
  whiteLevel : Z
}.

Definition uint16 (n : Z) : Prop := 0 <= n <= 65535.

Definition level_ok (n : Z) : Prop := 0 <= n <= maxLEDIntensity.

Definition reading_ok (rd : Reading) : Prop :=
  uint16 (r rd) /\ uint16 (g rd) /\ uint16 (b rd) /\ uint16 (c rd).

Definition state_ok (st : State) : Prop :=
  level_ok (prevYellowLED st) /\ level_ok (prevWhiteLED st).

Definition command_ok (cmd : DriveCommand) : Prop :=
  level_ok (yellowLevel cmd) /\ level_ok (whiteLevel cmd).

Definition levels_ok (yw : Z * Z) : Prop :=
  level_ok (fst yw) /\ level_ok (snd yw).

(** Lines 54-63: ambient estimates and the current yellow ratio. *)
Definition ambientWhite (rd : Reading) : F32.float :=
  F32.of_Z (min (r rd) (min (g rd) (b rd))).

Definition ambientYellow (rd : Reading) : F32.float :=
  F32.div (F32.add (F32.of_Z (r rd)) (F32.of_Z (g rd))) F32.two.

Definition YOI (st : State) (rd : Reading) : F32.float :=
  F32.add (F32.of_Z (prevYellowLED st)) (ambientYellow rd).

Definition WOI (st : State) (rd : Reading) : F32.float :=
  F32.add (F32.of_Z (prevWhiteLED st)) (ambientWhite rd).

Definition total (st : State) (rd : Reading) : F32.float :=
  F32.add (YOI st rd) (WOI st rd).

Definition currentYellowRatio (st : State) (rd : Reading) : F32.float :=
  if F32.ltb F32.zero (total st rd)
  then F32.div (YOI st rd) (total st rd)
  else F32.neg_one.

Definition ambientTotal (rd : Reading) : F32.float :=
  F32.add (ambientYellow rd) (ambientWhite rd).

(** The same quantities counted in halves, as integers: the raw counts
    are 16 bits wide and the levels 8 bits, so that none of the sums above
    is rounded (lemmas [ambientTotal_exact] to [total_exact] below). *)
Definition ambientHalves (rd : Reading) : Z :=
  (r rd + g rd) + 2 * min (r rd) (min (g rd) (b rd)).

Definition yellowHalves (st : State) (rd : Reading) : Z :=
  2 * prevYellowLED st + (r rd + g rd).

Definition whiteHalves (st : State) (rd : Reading) : Z :=
  2 * prevWhiteLED st + 2 * min (r rd) (min (g rd) (b rd)).

(** Lines 84-87: the comfort band classification of the reading. *)
Definition isTooDark (rd : Reading) : bool :=
  F32.ltb (ambientTotal rd) (F32.sub L_min hysteresis).

Definition isTooBright (rd : Reading) : bool :=
  F32.ltb (F32.add L_max hysteresis) (ambientTotal rd).

Definition isComfortable (rd : Reading) : bool :=
  negb (isTooDark rd) && negb (isTooBright rd).

(** Lines 90-94: the value of [isTooBright] after the fallback override. *)
Definition tooBrightAfterOverride (st : State) (rd : Reading) : bool :=
  if inFallbackMode st && isTooBright rd then false else isTooBright rd.

(** Line 97: the darkness test [currentYellowRatio == -1]. *)
Definition isDarkness (st : State) (rd : Reading) : bool :=
  F32.eqb (currentYellowRatio st rd) F32.neg_one.

(** Mode 1, lines 99-100: the two products are converted to [int]. *)
Definition darknessLevels : Z * Z :=
  (F32.to_Z (F32.mul (F32.of_Z default_k) targetYellowRatio),
   F32.to_Z (F32.mul (F32.of_Z default_k) (F32.sub F32.one targetYellowRatio))).

(** Modes 2 and 3.  [scale x] is
    [constrain(round(x * scalingFactor), 0, maxLEDIntensity)]. *)
Definition scale (x : Z) : Z :=
  constrain (round (F32.mul (F32.of_Z x) scalingFactor)) 0 maxLEDIntensity.

(** Lines 113-114 and 122-123: the ratio of the two new levels. *)
Definition ratioOf (y w : Z) : F32.float :=
  if 0 <? y + w then F32.div (F32.of_Z y) (F32.of_Z (y + w)) else F32.neg_one.

Definition outOfBand (ratio : F32.float) : bool :=
  F32.ltb ratio band_low || F32.ltb band_high ratio.

(** One pass through the body of the [while] loop, lines 117-123. *)
Definition rebalanceStep (yw : Z * Z) : Z * Z :=
  let '(y, w) := yw in
  let ratio := ratioOf y w in
  if F32.ltb band_high ratio then (scale y, w)
  else if F32.ltb ratio band_low then (y, scale w)
  else (y, w).

(** The [while] loop of lines 116-124.  The variable [ratio] always holds
    [ratioOf] of the current levels when the condition is tested.  The
    loop has no bound of its own: [None] says that [fuel] passes did not
    reach the exit. *)
Fixpoint rebalance (fuel : nat) (yw : Z * Z) : option (Z * Z) :=
  if outOfBand (ratioOf (fst yw) (snd yw)) then
    match fuel with
    | O => None
    | S fuel' => rebalance fuel' (rebalanceStep yw)
    end
  else Some yw.

(** Lines 127-128: cutoff for very low values. *)
Definition applyCutoff (yw : Z * Z) : Z * Z :=
  let '(y, w) := yw in
  let '(y, w) := if y <=? cutoff then (0, 0) else (y, w) in
  if w <=? cutoff then (0, 0) else (y, w).

Definition downscale (fuel : nat) (st : State) : option (Z * Z) :=
  match rebalance fuel (scale (prevYellowLED st), scale (prevWhiteLED st)) with
  | Some yw => Some (applyCutoff yw)
  | None => None
  end.

(** Mode 4, lines 135-147. *)
Definition comfort (st : State) (rd : Reading) : Z * Z :=
  let ratio := currentYellowRatio st rd in
  if F32.ltb ratio band_low then
    let adjust :=
      F32.mul (F32.mul gain (F32.sub targetYellowRatio ratio))
              (F32.of_Z maxLEDIntensity) in
    (constrain (prevYellowLED st + round adjust) 0 maxLEDIntensity,
     prevWhiteLED st)
  else if F32.ltb band_high ratio then
    let adjust :=
      F32.mul (F32.mul gain (F32.sub ratio targetYellowRatio))
              (F32.of_Z maxLEDIntensity) in
    (prevYellowLED st,
     constrain (prevWhiteLED st + round adjust) 0 maxLEDIntensity)
  else (prevYellowLED st, prevWhiteLED st).

(** Lines 163-166: the fallback flag at the end of the cycle, from its
    value [fb] after the mode dispatch. *)
Definition exitFallback (st : State) (rd : Reading) (fb : bool) : bool :=
  if negb (isTooDark rd) && negb (isDarkness st rd) then false else fb.

Definition finish (st : State) (rd : Reading) (yw : Z * Z) (fb : bool)
  : DriveCommand * State :=
  (mkCommand (fst yw) (snd yw),
   mkState (fst yw) (snd yw) (exitFallback st rd fb)).

(** One call of [loop()]: the spec's [step].  The serial prints, the
    constant test pin and the delay are left out. *)
Definition loop (fuel : nat) (st : State) (rd : Reading)
  : option (DriveCommand * State) :=
  if isDarkness st rd then
    Some (finish st rd darknessLevels true)
  else if isTooDark rd || tooBrightAfterOverride st rd then
    match downscale fuel st with
    | Some yw => Some (finish st rd yw (inFallbackMode st))
    | None => None
    end
  else Some (finish st rd (comfort st rd) (inFallbackMode st)).

(** Successive calls of [loop()], one per reading, each with [fuel] passes
    for its [while] loop: the command written and the state left behind by
    every cycle, in order. *)
Fixpoint run (fuel : nat) (st : State) (rds : list Reading)
  : option (list (DriveCommand * State)) :=
  match rds with
  | [] => Some []
  | rd :: rds' =>
      match loop fuel st rd with
      | None => None
      | Some (cmd, st') =>
          match run fuel st' rds' with
          | None => None
          | Some tr => Some ((cmd, st') :: tr)
          end
      end
  end.

End LED.

(** ** The SystemC model [Specification.cpp] *)

Module Lamp.

Definition lux_to_amps : F32.float := Eval vm_compute in F32.dec 1 1000.

Definition warm_temp : Z := 2700.
Definition cool_temp : Z := 6500.

(** Lines 64-79 of [adjust_lamps], with the two limits as arguments: the
    spec's [RatioMapper.map(tempK, warm, cool)], returning
    [(white_ratio, yellow_ratio)]. *)
Definition ratio_map (temp_target warm cool : Z) : F32.float * F32.float :=
  if temp_target <=? warm then (F32.zero, F32.one)
  else if temp_target >=? cool then (F32.one, F32.zero)
  else
    let factor :=
      F32.div (F32.of_Z (temp_target - warm)) (F32.of_Z (cool - warm)) in
    (factor, F32.sub F32.one factor).

(** [LampModule::adjust_lamps]: the values written to [white_current] and
    [yellow_current]. *)
Definition adjust_lamps (target_lux : F32.float) (target_color_temp : Z)
  : F32.float * F32.float :=
  let total_intensity := target_lux in
  let '(white_ratio, yellow_ratio) :=
    ratio_map target_color_temp warm_temp cool_temp in
  (F32.mul (F32.mul white_ratio total_intensity) lux_to_amps,
   F32.mul (F32.mul yellow_ratio total_intensity) lux_to_amps).

(** Lines 115-122 of [control_logic], with the two bounds as arguments: the
    spec's [IntensityClamp.clamp(measuredLux, Lmin, Lmax)]. *)
Definition clamp (measured_lux min_lux max_lux : F32.float) : F32.float :=
  if F32.ltb measured_lux min_lux then min_lux
  else if F32.ltb max_lux measured_lux then max_lux
  else measured_lux.

Definition min_lux : F32.float := Eval vm_compute in F32.of_Z 200.
Definition max_lux : F32.float := Eval vm_compute in F32.of_Z 1300.

(** [ECRL_System::control_logic]: the values written to the lamp's
    [target_lux] and [target_color_temp]. *)
Definition control_logic (measured_lux : F32.float) (measured_temp : Z)
  : F32.float * Z :=
  (clamp measured_lux min_lux max_lux, measured_temp).

(** [SensorModule::measure_ambient_conditions], lines 35-38: the values
    written to [ambient_lux] and [ambient_color_temp].  The two results of
    [rand()], which are not negative, are arguments; [%] on [int] is the
    truncating remainder, and the illuminance is converted to [float] by
    the port. *)
Definition measure_ambient_conditions (rand_lux rand_temp : Z)
  : F32.float * Z :=
  (F32.of_Z (Z.rem rand_lux 1101 + 200), Z.rem rand_temp 3801 + 2700).

End Lamp.

(** * Properties *)

(** ** The order of binary32 numbers *)

Section FloatOrder.

Lemma SFcompare_antisym (x y : spec_float) :
  SFcompare y x = option_map CompOpp (SFcompare x y).
Proof.
  destruct x as [sx|sx| |sx mx ex], y as [sy|sy| |sy my ey]; simpl;
    try reflexivity; try (destruct sx; reflexivity);
    try (destruct sy; reflexivity);
    try (destruct sx, sy; reflexivity).
  destruct sx, sy; simpl; try reflexivity;
    rewrite (Z.compare_antisym ex ey);
    destruct (ex ?= ey); simpl; try reflexivity;
    fold (Pos.compare my mx); fold (Pos.compare mx my);
    rewrite (Pos.compare_antisym mx my);
    destruct (mx ?= my)%positive; reflexivity.
Qed.

Lemma ltb_asym (x y : F32.float) :
  F32.ltb x y = true -> F32.ltb y x = false.
Proof.
  unfold F32.ltb, SFltb. rewrite (SFcompare_antisym x y).
  destruct (SFcompare x y) as [[ | | ]|]; simpl; congruence.
Qed.

Lemma leb_not_ltb (x y : F32.float) :
  F32.leb x y = true -> F32.ltb y x = false.
Proof.
  unfold F32.leb, F32.ltb, SFleb, SFltb. rewrite (SFcompare_antisym x y).
  destruct (SFcompare x y) as [[ | | ]|]; simpl; congruence.
Qed.

Lemma eqb_not_ltb (x y : F32.float) :
  F32.eqb x y = true -> F32.ltb x y = false /\ F32.ltb y x = false.
Proof.
  unfold F32.eqb, F32.ltb, SFeqb, SFltb. rewrite (SFcompare_antisym x y).
  destruct (SFcompare x y) as [[ | | ]|]; simpl; intuition congruence.
Qed.

(** Only a finite number itself compares equal to it. *)
Lemma eqb_finite_inv (x : F32.float) s m e :
  F32.eqb x (S754_finite s m e) = true -> x = S754_finite s m e.
Proof.
  unfold F32.eqb, SFeqb, SFcompare.
  destruct x as [sx|sx| |sx mx ex]; try discriminate;
    try (destruct sx, s; discriminate).
  fold (Pos.compare mx m).
  destruct sx, s; try discriminate;
    destruct (Z.compare_spec ex e); try discriminate;
    destruct (Pos.compare_spec mx m); try discriminate;
    intros _; subst; reflexivity.
Qed.

Ltac order_cases :=
  repeat match goal with
    | H : context [(?a ?= ?b)%Z] |- _ =>
        destruct (Z.compare_spec a b); subst; try discriminate H
    | H : context [Pos.compare_cont Eq ?a ?b] |- _ =>
        fold (Pos.compare a b) in H;
        destruct (Pos.compare_spec a b); subst; try discriminate H
    | |- context [(?a ?= ?b)%Z] =>
        destruct (Z.compare_spec a b); subst; try lia
    | |- context [Pos.compare_cont Eq ?a ?b] =>
        fold (Pos.compare a b);
        destruct (Pos.compare_spec a b); subst; try lia
    end.

Lemma ltb_trans (x y z : F32.float) :
  F32.ltb x y = true -> F32.ltb y z = true -> F32.ltb x z = true.
Proof.
  unfold F32.ltb, SFltb.
  destruct x as [sx|sx| |sx mx ex], y as [sy|sy| |sy my ey],
           z as [sz|sz| |sz mz ez]; simpl;
    try discriminate; try (intros _ _; reflexivity);
    try (destruct sx; simpl; try discriminate);
    try (destruct sy; simpl; try discriminate);
    try (destruct sz; simpl; try discriminate);
    try (intros _ _; reflexivity); try (intros _; discriminate);
    intros Hxy Hyz; order_cases; simpl in *;
    try discriminate; try reflexivity.
Qed.

End FloatOrder.

(** ** Operations of binary32 that do not round *)

Section Exact.

Local Abbreviation digits := F32.digits.

Lemma digits_pos p : 1 <= digits p.
Proof. unfold digits. lia. Qed.

Lemma digits_bounds p : 2 ^ (digits p - 1) <= Zpos p < 2 ^ digits p.
Proof.
  unfold digits.
  induction p as [p IH|p IH|]; simpl digits2_pos;
    try (rewrite Pos2Z.inj_succ;
         replace (Z.succ (Zpos (digits2_pos p)) - 1)
           with (Z.succ (Zpos (digits2_pos p) - 1)) by lia;
         rewrite !Z.pow_succ_r by lia; lia).
  simpl. lia.
Qed.

Lemma digits_unique p d : 2 ^ (d - 1) <= Zpos p < 2 ^ d -> digits p = d.
Proof.
  intros [Hlo Hhi]. pose proof (digits_bounds p) as [Blo Bhi].
  pose proof (digits_pos p).
  destruct (Z.lt_trichotomy (digits p) d) as [Hlt|[Heq|Hgt]]; [|exact Heq|].
  - assert (2 ^ digits p <= 2 ^ (d - 1)) by (apply Z.pow_le_mono_r; lia). lia.
  - destruct (Z.le_gt_cases 0 d) as [Hd|Hd].
    + assert (2 ^ d <= 2 ^ (digits p - 1)) by (apply Z.pow_le_mono_r; lia). lia.
    + rewrite (Z.pow_neg_r 2 d) in Hhi by lia. lia.
Qed.

Lemma digits_shift p k q :
  0 <= k -> Zpos q = Zpos p * 2 ^ k -> digits q = digits p + k.
Proof.
  intros Hk Hq. apply digits_unique. rewrite Hq.
  pose proof (digits_bounds p) as [Blo Bhi]. pose proof (digits_pos p).
  replace (digits p + k - 1) with (digits p - 1 + k) by lia.
  rewrite !Z.pow_add_r by lia.
  assert (0 < 2 ^ k) by (apply Z.pow_pos_nonneg; lia). nia.
Qed.

Lemma iter_pos_iter {A : Type} (f : A -> A) (p : positive) (x : A) :
  iter_pos f p x = Pos.iter f x p.
Proof.
  revert x. induction p as [p IH|p IH|]; intro x; simpl;
    rewrite ?IH, ?Pos.iter_swap; reflexivity.
Qed.

Lemma Pos_iter_xO p k : Zpos (Pos.iter xO p k) = Zpos p * 2 ^ Zpos k.
Proof.
  induction k as [|k IH] using Pos.peano_ind.
  - simpl. lia.
  - rewrite Pos.iter_succ, Pos2Z.inj_xO, IH, Pos2Z.inj_succ,
      Z.pow_succ_r by lia. lia.
Qed.

Lemma shr_exact k m :
  iter_pos shr_1 k (Build_shr_record (Zpos m * 2 ^ Zpos k) false false)
  = Build_shr_record (Zpos m) false false.
Proof.
  rewrite iter_pos_iter. revert m.
  induction k as [|k IH] using Pos.peano_ind; intro m.
  - replace (Zpos m * 2 ^ 1) with (Zpos m~0) by lia. reflexivity.
  - rewrite Pos.iter_succ.
    replace (Zpos m * 2 ^ Zpos (Pos.succ k)) with (Zpos m~0 * 2 ^ Zpos k)
      by (rewrite Pos2Z.inj_succ, Z.pow_succ_r by lia; lia).
    rewrite IH. reflexivity.
Qed.

(** A mantissa that is a canonical one followed by [k] zero bits is
    rounded to that canonical mantissa: nothing is lost. *)
Lemma round_aux_exact s m e k M :
  0 <= k -> M = Zpos m * 2 ^ k ->
  bounded F32.prec F32.emax m e = true ->
  binary_round_aux F32.prec F32.emax s M (e - k) loc_Exact
  = S754_finite s m e.
Proof.
  intros Hk HM Hb. unfold bounded in Hb.
  apply andb_prop in Hb. destruct Hb as [Hc He].
  unfold canonical_mantissa in Hc. apply Z.eqb_eq in Hc.
  unfold binary_round_aux, shr_fexp.
  assert (HdM : Zdigits2 M = digits m + k).
  { destruct M as [|q|q]; try lia. simpl. apply (digits_shift m k q); lia. }
  rewrite HdM. replace (digits m + k + (e - k)) with (digits m + e) by lia.
  fold (digits m) in Hc. rewrite Hc.
  replace (e - (e - k)) with k by lia.
  assert (Hshr : shr (shr_record_of_loc M loc_Exact) (e - k) k
                 = (Build_shr_record (Zpos m) false false, e)).
  { unfold shr, shr_record_of_loc. destruct k as [|p|p]; try lia.
    - rewrite HM. f_equal; [f_equal|]; lia.
    - rewrite HM, shr_exact. f_equal. lia. }
  rewrite Hshr. cbn [shr_m loc_of_shr_record round_nearest_even].
  cbn [Zdigits2]. fold (digits m). rewrite Hc, Z.sub_diag.
  cbn [shr shr_record_of_loc shr_m]. rewrite He. reflexivity.
Qed.


Lemma fexp_normal x : -149 <= x - 24 -> fexp F32.prec F32.emax x = x - 24.
Proof. unfold fexp, emin, F32.prec, F32.emax. lia. Qed.

Lemma bounded_normal m e :
  digits m = 24 -> -149 <= e <= 104 ->
  bounded F32.prec F32.emax m e = true.
Proof.
  intros Hd He. unfold bounded, canonical_mantissa. fold (digits m).
  rewrite Hd, fexp_normal by lia.
  apply andb_true_intro. split; [apply Z.eqb_eq | apply Z.leb_le];
    unfold F32.prec, F32.emax; lia.
Qed.

(** Rounding a pair that denotes the same number as a canonical pair
    returns the canonical pair. *)
Lemma binary_round_exact s M E m e :
  bounded F32.prec F32.emax m e = true ->
  (E <= e /\ Zpos M = Zpos m * 2 ^ (e - E)) \/
  (e <= E /\ Zpos m = Zpos M * 2 ^ (E - e)) ->
  binary_round F32.prec F32.emax s M E = S754_finite s m e.
Proof.
  intros Hb Hval. pose proof Hb as Hb'. unfold bounded in Hb'.
  apply andb_prop in Hb'. destruct Hb' as [Hc _].
  unfold canonical_mantissa in Hc. apply Z.eqb_eq in Hc. fold (digits m) in Hc.
  unfold binary_round, shl_align. fold (digits M).
  destruct Hval as [[HE HM]|[HE Hm]].
  - rewrite (digits_shift m (e - E) M) by lia.
    replace (digits m + (e - E) + E) with (digits m + e) by lia. rewrite Hc.
    assert (Hal : match e - E with
                  | Zneg d => (Pos.iter xO M d, e)
                  | _ => (M, E)
                  end = (M, E))
      by (destruct (e - E) eqn:Hk; try lia; reflexivity).
    rewrite Hal. replace E with (e - (e - E)) at 1 by lia.
    apply (round_aux_exact s m e (e - E)); try assumption; lia.
  - assert (Hd : digits m = digits M + (E - e))
      by (apply (digits_shift M (E - e) m); lia).
    replace (digits M + E) with (digits m + e) by lia. rewrite Hc.
    assert (Hal : match e - E with
                  | Zneg d => (Pos.iter xO M d, e)
                  | _ => (M, E)
                  end = (m, e)).
    { destruct (e - E) as [|p|p] eqn:Hk; try lia.
      - replace (E - e) with 0 in Hm by lia.
        f_equal; [apply Pos2Z.inj|]; lia.
      - f_equal. apply Pos2Z.inj. rewrite Pos_iter_xO, Hm.
        f_equal. f_equal. lia. }
    rewrite Hal. replace e with (e - 0) at 1 by lia.
    apply (round_aux_exact s m e 0); try assumption; lia.
Qed.

Lemma half_units_zero : F32.half_units 0 = F32.zero.
Proof. reflexivity. Qed.

(** The canonical pair of [h/2] for a positive [h] below [2^24]. *)
Lemma half_units_repr h :
  0 < h < 2 ^ 24 ->
  exists m e,
    F32.half_units h = S754_finite false m e /\
    digits m = 24 /\ -25 < e <= -1 /\ Zpos m = h * 2 ^ (-1 - e).
Proof.
  intros [Hlo Hhi]. destruct h as [|p|p]; try lia.
  pose proof (digits_bounds p) as [Blo Bhi]. pose proof (digits_pos p).
  assert (Hd : digits p <= 24).
  { destruct (Z.le_gt_cases (digits p) 24) as [|Hgt]; [assumption|].
    assert (2 ^ 24 <= 2 ^ (digits p - 1)) by (apply Z.pow_le_mono_r; lia).
    lia. }
  set (e := digits p - 25).
  assert (Hpos : 0 < Zpos p * 2 ^ (-1 - e))
    by (apply Z.mul_pos_pos; [lia | apply Z.pow_pos_nonneg; lia]).
  destruct (Zpos p * 2 ^ (-1 - e)) as [|m|m] eqn:Hm; try lia.
  assert (Hdm : digits m = 24).
  { rewrite (digits_shift p (-1 - e) m) by lia. lia. }
  exists m, e. repeat split; try lia.
  unfold F32.half_units, binary_normalize.
  apply binary_round_exact; [apply bounded_normal; lia|].
  right. split; lia.
Qed.

Lemma half_units_eq h m e :
  digits m = 24 -> -149 <= e <= -1 -> Zpos m = h * 2 ^ (-1 - e) ->
  F32.half_units h = S754_finite false m e.
Proof.
  intros Hd He Hm.
  assert (0 < 2 ^ (-1 - e)) by (apply Z.pow_pos_nonneg; lia).
  destruct h as [|p|p]; try lia.
  unfold F32.half_units, binary_normalize.
  apply binary_round_exact; [apply bounded_normal; lia|].
  right. split; lia.
Qed.

Lemma of_Z_half_units n :
  0 <= n < 2 ^ 23 -> F32.of_Z n = F32.half_units (2 * n).
Proof.
  intros [Hlo Hhi]. destruct n as [|p|p]; try lia; [reflexivity|].
  destruct (half_units_repr (2 * Zpos p)) as (m & e & Heq & Hd & He & Hm);
    [lia|].
  rewrite Heq. unfold F32.of_Z, binary_normalize.
  apply binary_round_exact; [apply bounded_normal; lia|].
  right. split; [lia|]. rewrite Hm.
  replace (0 - e) with (Z.succ (-1 - e)) by lia.
  rewrite Z.pow_succ_r by lia. lia.
Qed.

Lemma shl_align_value m e ez :
  ez <= e -> Zpos (fst (shl_align m e ez)) = Zpos m * 2 ^ (e - ez).
Proof.
  intros He. unfold shl_align.
  destruct (ez - e) as [|p|p] eqn:Hk; try lia; cbn [fst].
  - replace (e - ez) with 0 by lia. lia.
  - rewrite Pos_iter_xO. f_equal. f_equal. lia.
Qed.

(** Sums of halves below [2^23] are computed without rounding. *)
Lemma add_half_units a b :
  0 <= a -> 0 <= b -> a + b < 2 ^ 24 ->
  F32.add (F32.half_units a) (F32.half_units b) = F32.half_units (a + b).
Proof.
  intros Ha Hb Hab.
  destruct (Z.eq_dec a 0) as [->|Ha0].
  { rewrite half_units_zero. simpl (0 + b).
    destruct (Z.eq_dec b 0) as [->|Hb0]; [reflexivity|].
    destruct (half_units_repr b) as (m & e & -> & _); [lia|reflexivity]. }
  destruct (Z.eq_dec b 0) as [->|Hb0].
  { rewrite half_units_zero, Z.add_0_r.
    destruct (half_units_repr a) as (m & e & -> & _); [lia|reflexivity]. }
  destruct (half_units_repr a) as (ma & ea & -> & Hda & Hea & Hma); [lia|].
  destruct (half_units_repr b) as (mb & eb & -> & Hdb & Heb & Hmb); [lia|].
  destruct (half_units_repr (a + b)) as (mc & ec & -> & Hdc & Hec & Hmc);
    [lia|].
  unfold F32.add, SFadd. cbn [cond_Zopp].
  set (ez := Z.min ea eb).
  rewrite !shl_align_value by (unfold ez; lia).
  assert (Hsum : Zpos ma * 2 ^ (ea - ez) + Zpos mb * 2 ^ (eb - ez)
                 = (a + b) * 2 ^ (-1 - ez)).
  { rewrite Hma, Hmb, <- !Z.mul_assoc, <- !Z.pow_add_r by (unfold ez; lia).
    replace (-1 - ea + (ea - ez)) with (-1 - ez) by lia.
    replace (-1 - eb + (eb - ez)) with (-1 - ez) by lia. ring. }
  rewrite Hsum.
  assert (0 < 2 ^ (-1 - ez)) by (apply Z.pow_pos_nonneg; unfold ez; lia).
  destruct ((a + b) * 2 ^ (-1 - ez)) as [|M|M] eqn:HM; try lia.
  unfold binary_normalize.
  apply binary_round_exact; [apply bounded_normal; lia|].
  destruct (Z.le_gt_cases ez ec) as [Hle|Hgt].
  - left. split; [assumption|].
    rewrite Hmc, <- HM, <- Z.mul_assoc, <- Z.pow_add_r by lia.
    f_equal. f_equal. lia.
  - right. split; [lia|].
    rewrite Hmc, <- HM, <- Z.mul_assoc, <- Z.pow_add_r by (unfold ez; lia).
    f_equal. f_equal. lia.
Qed.


(** Halving a number of halves: no rounding either. *)
Lemma div_two_half_units h :
  0 <= h < 2 ^ 23 ->
  F32.div (F32.half_units (2 * h)) F32.two = F32.half_units h.
Proof.
  intros [Hlo Hhi].
  destruct (Z.eq_dec h 0) as [->|Hh0]; [reflexivity|].
  destruct (half_units_repr (2 * h)) as (m & e & -> & Hd & He & Hm); [lia|].
  assert (He2 : -24 < e).
  { destruct (Z.le_gt_cases e (-24)) as [Hle|]; [|lia].
    pose proof (digits_bounds m) as [_ Bhi]. rewrite Hd in Bhi.
    assert (2 ^ 23 <= 2 ^ (-1 - e)) by (apply Z.pow_le_mono_r; lia). nia. }
  rewrite (half_units_eq h m (e - 1)); try lia.
  2:{ rewrite Hm. replace (-1 - e) with (-1 - (e - 1) - 1) by lia.
      replace (-1 - (e - 1)) with (Z.succ (-1 - (e - 1) - 1)) at 2 by lia.
      rewrite Z.pow_succ_r by lia. lia. }
  unfold F32.div, F32.two, SFdiv, SFdiv_core_binary.
  cbn [Zdigits2 xorb]. fold (digits m). rewrite Hd.
  change (Zpos (digits2_pos 8388608)) with 24.
  replace (24 + e - (24 + -22)) with (e + 22) by lia.
  rewrite fexp_normal by lia.
  replace (Z.min (e + 22 - 24) (e - -22)) with (e - 2) by lia.
  replace (e - -22 - (e - 2)) with 24 by lia.
  cbv iota.
  rewrite Z.shiftl_mul_pow2 by lia.
  assert (Hdiv : Z.div_eucl (Zpos m * 2 ^ 24) 8388608 = (2 * Zpos m, 0)).
  { pose proof (Z.div_eucl_eq (Zpos m * 2 ^ 24) 8388608) as Heq.
    pose proof (Z.mod_pos_bound (Zpos m * 2 ^ 24) 8388608) as Hbd.
    unfold Z.modulo in Hbd.
    destruct (Z.div_eucl (Zpos m * 2 ^ 24) 8388608) as [q rm].
    specialize (Heq ltac:(lia)). specialize (Hbd ltac:(lia)).
    change (2 ^ 24) with 16777216 in *.
    f_equal; lia. }
  rewrite Hdiv. change (new_location 8388608 0) with loc_Exact.
  replace (e - 2) with (e - 1 - 1) by lia.
  apply (round_aux_exact false m (e - 1) 1); try lia.
  apply bounded_normal; lia.
Qed.

(** Multiplying a float by [1.0] returns it. *)
Lemma mul_one_l x :
  F32.valid x = true -> F32.is_finite x = true -> F32.mul F32.one x = x.
Proof.
  destruct x as [s|s| |s m e]; try discriminate; intros Hv _;
    [reflexivity|].
  unfold F32.mul, F32.one, SFmul. cbn [xorb].
  replace (-23 + e) with (e - 23) by lia.
  apply round_aux_exact; [lia| lia |exact Hv].
Qed.

(** What [binary_round_aux] returns carries the sign it was given. *)
Lemma binary_round_aux_sign s M E l :
  match binary_round_aux F32.prec F32.emax s M E l with
  | S754_zero s' | S754_infinity s' | S754_finite s' _ _ => s' = s
  | S754_nan => True
  end.
Proof.
  unfold binary_round_aux.
  destruct (shr_fexp F32.prec F32.emax M E l) as [mrs' e'].
  destruct (shr_fexp F32.prec F32.emax _ e' loc_Exact) as [mrs'' e''].
  destruct (shr_m mrs''); [reflexivity| |exact I].
  destruct (e'' <=? F32.emax - F32.prec); reflexivity.
Qed.


(** Comparing two numbers of halves compares the counts. *)
Lemma ltb_half_units a b :
  0 <= a < 2 ^ 24 -> 0 <= b < 2 ^ 24 ->
  F32.ltb (F32.half_units a) (F32.half_units b) = (a <? b).
Proof.
  intros Ha Hb.
  destruct (Z.eq_dec a 0) as [->|Ha0]; destruct (Z.eq_dec b 0) as [->|Hb0];
    try reflexivity.
  - destruct (half_units_repr b) as (m & e & -> & _); [lia|].
    symmetry. apply Z.ltb_lt. lia.
  - destruct (half_units_repr a) as (m & e & -> & _); [lia|].
    symmetry. apply Z.ltb_ge. lia.
  - destruct (half_units_repr a) as (ma & ea & -> & Hda & Hea & Hma); [lia|].
    destruct (half_units_repr b) as (mb & eb & -> & Hdb & Heb & Hmb); [lia|].
    pose proof (digits_bounds ma) as [Alo Ahi]. rewrite Hda in Alo, Ahi.
    pose proof (digits_bounds mb) as [Blo Bhi]. rewrite Hdb in Blo, Bhi.
    change (2 ^ (24 - 1)) with 8388608 in *. change (2 ^ 24) with 16777216 in *.
    unfold F32.ltb, SFltb, SFcompare.
    destruct (Z.compare_spec ea eb) as [Heq|Hlt|Hgt].
    + subst eb. fold (Pos.compare ma mb).
      assert (0 < 2 ^ (-1 - ea)) by (apply Z.pow_pos_nonneg; lia).
      destruct (Pos.compare_spec ma mb) as [Hm|Hm|Hm]; symmetry.
      * apply Z.ltb_ge. subst mb. nia.
      * apply Z.ltb_lt. apply Pos2Z.pos_lt_pos in Hm. nia.
      * apply Z.ltb_ge. apply Pos2Z.pos_lt_pos in Hm. nia.
    + symmetry. apply Z.ltb_lt.
      assert (0 < 2 ^ (-1 - eb)) by (apply Z.pow_pos_nonneg; lia).
      assert (Hp : 2 ^ (-1 - ea) = 2 ^ (-1 - eb) * 2 ^ (eb - ea)).
      { rewrite <- Z.pow_add_r by lia. f_equal. lia. }
      assert (2 <= 2 ^ (eb - ea)).
      { change 2 with (2 ^ 1) at 1. apply Z.pow_le_mono_r; lia. }
      rewrite Hp in Hma. nia.
    + symmetry. apply Z.ltb_ge.
      assert (0 < 2 ^ (-1 - ea)) by (apply Z.pow_pos_nonneg; lia).
      assert (Hp : 2 ^ (-1 - eb) = 2 ^ (-1 - ea) * 2 ^ (ea - eb)).
      { rewrite <- Z.pow_add_r by lia. f_equal. lia. }
      assert (2 <= 2 ^ (ea - eb)).
      { change 2 with (2 ^ 1) at 1. apply Z.pow_le_mono_r; lia. }
      rewrite Hp in Hmb. nia.
Qed.

End Exact.

(** ** The sketch: exact sensor arithmetic *)

Section SensorArithmetic.
Import LED.

Variable st : State.
Variable rd : Reading.
Hypothesis Hst : state_ok st.
Hypothesis Hrd : reading_ok rd.

Lemma min_bounds a b : uint16 a -> uint16 b -> uint16 (Arduino.min a b).
Proof. unfold uint16, Arduino.min. destruct (a <? b); lia. Qed.

Lemma min3_bounds : uint16 (Arduino.min (r rd) (Arduino.min (g rd) (b rd))).
Proof.
  destruct Hrd as (Hr & Hg & Hb & _). apply min_bounds; [|apply min_bounds];
    assumption.
Qed.

Lemma ambientWhite_exact :
  ambientWhite rd
  = F32.half_units (2 * Arduino.min (r rd) (Arduino.min (g rd) (b rd))).
Proof.
  unfold ambientWhite. pose proof min3_bounds as Hm. unfold uint16 in Hm.
  apply of_Z_half_units. change (2 ^ 23) with 8388608. lia.
Qed.

Lemma ambientYellow_exact :
  ambientYellow rd = F32.half_units (r rd + g rd).
Proof.
  destruct Hrd as (Hr & Hg & _). unfold uint16 in Hr, Hg.
  unfold ambientYellow.
  rewrite !of_Z_half_units by (change (2 ^ 23) with 8388608; lia).
  rewrite add_half_units by (change (2 ^ 24) with 16777216; lia).
  replace (2 * r rd + 2 * g rd) with (2 * (r rd + g rd)) by lia.
  apply div_two_half_units. change (2 ^ 23) with 8388608. lia.
Qed.

Lemma ambientTotal_exact :
  ambientTotal rd = F32.half_units (ambientHalves rd).
Proof.
  destruct Hrd as (Hr & Hg & _). unfold uint16 in Hr, Hg.
  pose proof min3_bounds as Hm. unfold uint16 in Hm.
  unfold ambientTotal. rewrite ambientYellow_exact, ambientWhite_exact.
  apply add_half_units; change (2 ^ 24) with 16777216; lia.
Qed.

Lemma YOI_exact : YOI st rd = F32.half_units (yellowHalves st rd).
Proof.
  destruct Hrd as (Hr & Hg & _). unfold uint16 in Hr, Hg.
  destruct Hst as [[Hy1 Hy2] _]. unfold maxLEDIntensity in Hy2.
  unfold YOI. rewrite ambientYellow_exact.
  rewrite of_Z_half_units by (change (2 ^ 23) with 8388608; lia).
  apply add_half_units; change (2 ^ 24) with 16777216; lia.
Qed.

Lemma WOI_exact : WOI st rd = F32.half_units (whiteHalves st rd).
Proof.
  pose proof min3_bounds as Hm. unfold uint16 in Hm.
  destruct Hst as [_ [Hw1 Hw2]]. unfold maxLEDIntensity in Hw2.
  unfold WOI. rewrite ambientWhite_exact.
  rewrite of_Z_half_units by (change (2 ^ 23) with 8388608; lia).
  apply add_half_units; change (2 ^ 24) with 16777216; lia.
Qed.

Lemma total_exact :
  total st rd = F32.half_units (yellowHalves st rd + whiteHalves st rd).
Proof.
  destruct Hrd as (Hr & Hg & _). unfold uint16 in Hr, Hg.
  pose proof min3_bounds as Hm. unfold uint16 in Hm.
  destruct Hst as [[Hy1 Hy2] [Hw1 Hw2]]. unfold maxLEDIntensity in Hy2, Hw2.
  unfold total. rewrite YOI_exact, WOI_exact.
  apply add_half_units; unfold yellowHalves, whiteHalves;
    change (2 ^ 24) with 16777216; lia.
Qed.

Lemma halves_bounds :
  0 <= ambientHalves rd < 2 ^ 24 /\
  0 <= yellowHalves st rd /\ 0 <= whiteHalves st rd /\
  yellowHalves st rd + whiteHalves st rd < 2 ^ 24 /\
  ambientHalves rd <= yellowHalves st rd + whiteHalves st rd.
Proof.
  destruct Hrd as (Hr & Hg & _). unfold uint16 in Hr, Hg.
  pose proof min3_bounds as Hm. unfold uint16 in Hm.
  destruct Hst as [[Hy1 Hy2] [Hw1 Hw2]]. unfold maxLEDIntensity in Hy2, Hw2.
  unfold ambientHalves, yellowHalves, whiteHalves.
  change (2 ^ 24) with 16777216. lia.
Qed.

Lemma ambientHalves_bounds : 0 <= ambientHalves rd < 2 ^ 24.
Proof.
  destruct Hrd as (Hr & Hg & _). unfold uint16 in Hr, Hg.
  pose proof min3_bounds as Hm. unfold uint16 in Hm.
  unfold ambientHalves. change (2 ^ 24) with 16777216. lia.
Qed.

(** The classification, read on the integer counts: too dark below 148,
    too bright above 1002. *)
Lemma isTooDark_exact : isTooDark rd = (ambientHalves rd <? 296).
Proof.
  unfold isTooDark. rewrite ambientTotal_exact.
  change (F32.sub L_min hysteresis) with (F32.half_units 296).
  apply ltb_half_units; [apply ambientHalves_bounds|].
  change (2 ^ 24) with 16777216. lia.
Qed.

Lemma isTooBright_exact : isTooBright rd = (2004 <? ambientHalves rd).
Proof.
  unfold isTooBright. rewrite ambientTotal_exact.
  change (F32.add L_max hysteresis) with (F32.half_units 2004).
  apply ltb_half_units; [|apply ambientHalves_bounds].
  change (2 ^ 24) with 16777216. lia.
Qed.

(** A quotient of two non-negative numbers is not [-1]. *)
Lemma div_half_units_not_neg_one a b :
  0 <= a < 2 ^ 24 -> 0 < b < 2 ^ 24 ->
  F32.eqb (F32.div (F32.half_units a) (F32.half_units b)) F32.neg_one = false.
Proof.
  intros Ha Hb.
  destruct (half_units_repr b) as (mb & eb & -> & _); [lia|].
  destruct (Z.eq_dec a 0) as [->|Ha0]; [reflexivity|].
  destruct (half_units_repr a) as (ma & ea & -> & _); [lia|].
  unfold F32.div, SFdiv.
  destruct (SFdiv_core_binary F32.prec F32.emax (Zpos ma) ea (Zpos mb) eb)
    as [[mz ez] lz].
  pose proof (binary_round_aux_sign (xorb false false) mz ez lz) as Hs.
  destruct (binary_round_aux F32.prec F32.emax (xorb false false) mz ez lz);
    try reflexivity; cbn [xorb] in Hs; subst; reflexivity.
Qed.

(** The darkness sentinel is met exactly when nothing at all is measured
    or driven. *)
Lemma isDarkness_exact :
  isDarkness st rd = (yellowHalves st rd + whiteHalves st rd =? 0).
Proof.
  pose proof halves_bounds as (_ & Hy & Hw & Ht & _).
  unfold isDarkness, currentYellowRatio. rewrite total_exact, YOI_exact.
  change F32.zero with (F32.half_units 0).
  rewrite ltb_half_units by (change (2 ^ 24) with 16777216; lia).
  destruct (Z.ltb_spec 0 (yellowHalves st rd + whiteHalves st rd)) as [Hp|Hz].
  - rewrite div_half_units_not_neg_one by lia.
    symmetry. apply Z.eqb_neq. lia.
  - symmetry. apply Z.eqb_eq. lia.
Qed.

End SensorArithmetic.

(** ** The sketch: output levels stay within the PWM range *)

Section Range.
Import LED.

Lemma constrain_range amt low high :
  low <= high -> low <= Arduino.constrain amt low high <= high.
Proof.
  intros H. unfold Arduino.constrain.
  destruct (Z.ltb_spec amt low); [lia|].
  destruct (Z.gtb_spec amt high); lia.
Qed.

Lemma constrain_level amt : level_ok (Arduino.constrain amt 0 maxLEDIntensity).
Proof. apply constrain_range. unfold maxLEDIntensity. lia. Qed.

Lemma scale_ok x : level_ok (scale x).
Proof. apply constrain_level. Qed.

Lemma rebalanceStep_ok yw : levels_ok yw -> levels_ok (rebalanceStep yw).
Proof.
  destruct yw as [y w]. intros [Hy Hw]. unfold rebalanceStep.
  destruct (F32.ltb band_high (ratioOf y w)); [split; [apply scale_ok|exact Hw]|].
  destruct (F32.ltb (ratioOf y w) band_low); split;
    try assumption; apply scale_ok.
Qed.

Lemma rebalance_ok fuel : forall yw yw',
  levels_ok yw -> rebalance fuel yw = Some yw' -> levels_ok yw'.
Proof.
  induction fuel as [|fuel IH]; intros yw yw' Hok; simpl;
    destruct (outOfBand (ratioOf (fst yw) (snd yw))); try discriminate;
    try (intros [= <-]; exact Hok).
  apply IH, rebalanceStep_ok, Hok.
Qed.

Lemma applyCutoff_ok yw : levels_ok yw -> levels_ok (applyCutoff yw).
Proof.
  destruct yw as [y w]. intros [Hy Hw]. unfold applyCutoff.
  assert (H0 : levels_ok (0, 0))
    by (split; unfold level_ok, maxLEDIntensity; simpl; lia).
  destruct (y <=? cutoff); [destruct (0 <=? cutoff); exact H0|].
  destruct (w <=? cutoff); [exact H0|split; assumption].
Qed.

Lemma downscale_ok fuel st yw :
  downscale fuel st = Some yw -> levels_ok yw.
Proof.
  unfold downscale.
  destruct (rebalance fuel _) as [yw0|] eqn:Hr; [|discriminate].
  intros [= <-]. apply applyCutoff_ok.
  eapply rebalance_ok; [|exact Hr]. split; apply scale_ok.
Qed.

Lemma comfort_ok st rd : state_ok st -> levels_ok (comfort st rd).
Proof.
  intros [Hy Hw]. unfold comfort.
  destruct (F32.ltb (currentYellowRatio st rd) band_low);
    [split; [apply constrain_level|exact Hw]|].
  destruct (F32.ltb band_high (currentYellowRatio st rd));
    split; try assumption; apply constrain_level.
Qed.

Lemma darknessLevels_value : darknessLevels = (30, 19).
Proof. reflexivity. Qed.

Lemma loop_ok fuel st rd cmd st' :
  state_ok st -> loop fuel st rd = Some (cmd, st') ->
  command_ok cmd /\ state_ok st'.
Proof.
  intros Hst. unfold loop, finish.
  assert (Hfin : forall yw fb,
    levels_ok yw ->
    Some (mkCommand (fst yw) (snd yw),
          mkState (fst yw) (snd yw) (exitFallback st rd fb))
    = Some (cmd, st') -> command_ok cmd /\ state_ok st').
  { intros yw fb Hok [= <- <-]. split; exact Hok. }
  destruct (isDarkness st rd).
  - apply Hfin. rewrite darknessLevels_value.
    split; unfold level_ok, maxLEDIntensity; simpl; lia.
  - destruct (isTooDark rd || tooBrightAfterOverride st rd).
    + destruct (downscale fuel st) as [yw|] eqn:Hd; [|discriminate].
      apply Hfin. exact (downscale_ok _ _ _ Hd).
    + apply Hfin, comfort_ok, Hst.
Qed.

End Range.

(** ** The sketch: the claims about [loop()] *)

Section Controller.
Import LED.

(** C1.  Starting from a state whose two previous levels lie in
    [0, maxLEDIntensity], whatever the readings, every command written by
    [loop()] has both levels in [0, maxLEDIntensity], and so has every
    state kept for the next cycle; this holds in all four modes. *)
Theorem levels_within_range fuel st rds tr :
  state_ok st -> run fuel st rds = Some tr ->
  Forall (fun cs => command_ok (fst cs) /\ state_ok (snd cs)) tr.
Proof.
  revert st tr. induction rds as [|rd rds IH]; intros st tr Hst; simpl.
  - intros [= <-]. constructor.
  - destruct (loop fuel st rd) as [[cmd st']|] eqn:Hl; [|discriminate].
    destruct (run fuel st' rds) as [tr'|] eqn:Hr; [|discriminate].
    intros [= <-]. destruct (loop_ok _ _ _ _ _ Hst Hl) as [Hc Hs'].
    constructor; [split; assumption|]. exact (IH st' tr' Hs' Hr).
Qed.

Lemma levels_within_range_witness :
  Forall (fun cs => command_ok (fst cs) /\ state_ok (snd cs))
    [(mkCommand 30 19, mkState 30 19 true);
     (mkCommand 33 19, mkState 33 19 false);
     (mkCommand 27 17, mkState 27 17 false);
     (mkCommand 24 15, mkState 24 15 false);
     (mkCommand 26 15, mkState 26 15 false)].
Proof.
  apply (levels_within_range 20 (mkState 0 0 false)
           [mkReading 0 0 0 0; mkReading 2000 2000 2000 6000;
            mkReading 2000 2000 2000 6000; mkReading 20 20 20 60;
            mkReading 300 300 300 900]).
  - unfold state_ok, level_ok, maxLEDIntensity. simpl. lia.
  - vm_compute. reflexivity.
Defined.

(** The [while] loop is left only with the ratio inside the band. *)
Lemma rebalance_exit fuel : forall yw yw',
  rebalance fuel yw = Some yw' ->
  outOfBand (ratioOf (fst yw') (snd yw')) = false.
Proof.
  induction fuel as [|fuel IH]; intros yw yw'; simpl;
    destruct (outOfBand (ratioOf (fst yw) (snd yw))) eqn:Hb;
    try discriminate; try (intros [= <-]; exact Hb).
  apply IH.
Qed.

(** More passes do not change a result already reached. *)
Lemma rebalance_fuel_mono fuel : forall fuel' yw yw',
  (fuel <= fuel')%nat -> rebalance fuel yw = Some yw' ->
  rebalance fuel' yw = Some yw'.
Proof.
  induction fuel as [|fuel IH]; intros fuel' yw yw' Hle; simpl.
  - destruct fuel'; simpl;
      destruct (outOfBand (ratioOf (fst yw) (snd yw))); try discriminate;
      trivial.
  - destruct fuel' as [|fuel']; [lia|]. simpl.
    destruct (outOfBand (ratioOf (fst yw) (snd yw))); [|trivial].
    apply IH. lia.
Qed.

(** A pair of levels outside the band that a pass leaves unchanged keeps
    the loop running for ever. *)
Lemma rebalance_stuck yw :
  outOfBand (ratioOf (fst yw) (snd yw)) = true -> rebalanceStep yw = yw ->
  forall fuel, rebalance fuel yw = None.
Proof.
  intros Hb Hs fuel. induction fuel as [|fuel IH]; simpl; rewrite Hb;
    [reflexivity|]. rewrite Hs. exact IH.
Qed.

(** The worked case of the spec: from 200 and 50 the loop stops after nine
    passes at 69 and 45, a ratio inside the band, and the cutoff leaves
    them alone. *)
Lemma downscale_200_50 fuel fb :
  (9 <= fuel)%nat ->
  downscale fuel (mkState 200 50 fb) = Some (69, 45) /\
  rebalance 8 (scale 200, scale 50) = None /\
  outOfBand (ratioOf 69 45) = false.
Proof.
  intros Hf. split; [|split; vm_compute; reflexivity].
  unfold downscale. cbn [prevYellowLED prevWhiteLED].
  rewrite (rebalance_fuel_mono 9 fuel (scale 200, scale 50) (69, 45) Hf);
    [reflexivity|vm_compute; reflexivity].
Qed.

(** What the downscale branch returns when its loop stops: both levels
    0, or a ratio inside the band. *)
Lemma downscale_result fuel st y w :
  downscale fuel st = Some (y, w) ->
  (y = 0 /\ w = 0) \/ outOfBand (ratioOf y w) = false.
Proof.
  unfold downscale.
  destruct (rebalance fuel _) as [[y0 w0]|] eqn:Hr; [|discriminate].
  apply rebalance_exit in Hr. cbn [fst snd] in Hr. unfold applyCutoff.
  destruct (y0 <=? cutoff).
  - change (0 <=? cutoff) with true. intros [= <- <-]. left. split; reflexivity.
  - destruct (w0 <=? cutoff); intros [= <- <-];
      [left; split; reflexivity|right; exact Hr].
Qed.

(** C2.  The claim asks the ratio loop to stop for every pair of previous
    levels.  At power-up both levels are 0; under dim light (raw counts
    10, 10, 10: too dark, not darkness) both scaled levels are 0, the
    ratio is the sentinel -1, which is below the band, and a pass rescales
    the white level 0 to 0: no number of passes reaches the exit. *)
Theorem rebalance_never_exits_from_zero fuel :
  loop fuel (mkState 0 0 false) (mkReading 10 10 10 30) = None.
Proof.
  unfold loop.
  change (isDarkness (mkState 0 0 false) (mkReading 10 10 10 30)) with false.
  change (isTooDark (mkReading 10 10 10 30)) with true.
  cbn [orb]. unfold downscale. cbn [prevYellowLED prevWhiteLED].
  change (scale 0) with 0.
  rewrite (rebalance_stuck (0, 0)); reflexivity.
Qed.

(** C4.  The claim is that on a combined total of 0 [loop()] writes
    [default_k * targetYellowRatio] = 50 * 0.6 = 30 to the yellow LED and
    [default_k * (1.0 - targetYellowRatio)] = 50 * 0.4 = 20 to the white
    one and sets the fallback flag.  The code meets it for the ratio (the
    sentinel -1), for the yellow level and for the flag, and misses the
    white level by one: lines 99-100 assign the [float] products to an
    [int] without the [round] that every other level assignment of the
    sketch applies, the white product is 19.999998 in binary32, and the
    conversion drops the fraction.  The LED gets 19, where rounding the
    same product gives the claimed 20, and the two levels no longer add up
    to [default_k]. *)
Theorem darkness_outputs_defaults fuel st rd :
  F32.eqb (total st rd) F32.zero = true ->
  let yellow := F32.mul (F32.of_Z default_k) targetYellowRatio in
  let white := F32.mul (F32.of_Z default_k)
                       (F32.sub F32.one targetYellowRatio) in
  currentYellowRatio st rd = F32.neg_one /\
  loop fuel st rd = Some (mkCommand 30 19, mkState 30 19 true) /\
  F32.to_Z yellow = 30 /\ Arduino.round yellow = 30 /\
  F32.to_Z white = 19 /\ Arduino.round white = 20 /\
  30 + 19 <> default_k.
Proof.
  intros Hz yellow white.
  assert (Hr : currentYellowRatio st rd = F32.neg_one).
  { unfold currentYellowRatio.
    destruct (eqb_not_ltb _ _ Hz) as [_ ->]. reflexivity. }
  split; [exact Hr|]. split.
  - unfold loop, isDarkness, finish, exitFallback, isDarkness. rewrite Hr.
    change (F32.eqb F32.neg_one F32.neg_one) with true.
    rewrite andb_false_r. rewrite darknessLevels_value. reflexivity.
  - repeat split; try (vm_compute; reflexivity).
    unfold default_k. lia.
Qed.

Lemma darkness_outputs_defaults_witness :
  currentYellowRatio (mkState 0 0 false) (mkReading 0 0 7 2) = F32.neg_one /\
  loop 0 (mkState 0 0 false) (mkReading 0 0 7 2)
  = Some (mkCommand 30 19, mkState 30 19 true) /\
  F32.to_Z (F32.mul (F32.of_Z default_k) targetYellowRatio) = 30 /\
  Arduino.round (F32.mul (F32.of_Z default_k) targetYellowRatio) = 30 /\
  F32.to_Z (F32.mul (F32.of_Z default_k)
                    (F32.sub F32.one targetYellowRatio)) = 19 /\
  Arduino.round (F32.mul (F32.of_Z default_k)
                         (F32.sub F32.one targetYellowRatio)) = 20 /\
  30 + 19 <> default_k.
Proof.
  apply (darkness_outputs_defaults 0 (mkState 0 0 false) (mkReading 0 0 7 2)).
  vm_compute. reflexivity.
Defined.

(** C7.  At the end of a cycle the fallback flag is cleared when the
    reading was not too dark and the ratio is not the sentinel -1;
    otherwise it is never cleared: a flag that was set stays set. *)
Theorem fallback_exit_rule fuel st rd cmd st' :
  loop fuel st rd = Some (cmd, st') ->
  (isTooDark rd = false /\
   F32.eqb (currentYellowRatio st rd) F32.neg_one = false ->
   inFallbackMode st' = false) /\
  (~ (isTooDark rd = false /\
      F32.eqb (currentYellowRatio st rd) F32.neg_one = false) ->
   inFallbackMode st = true -> inFallbackMode st' = true).
Proof.
  unfold loop, finish, exitFallback. fold (isDarkness st rd).
  destruct (isDarkness st rd) eqn:Hd.
  - intros [= <- <-]. cbn [inFallbackMode]. rewrite andb_false_r.
    split; [intros [_ H]; discriminate H|reflexivity].
  - destruct (isTooDark rd) eqn:Htd; cbn [orb negb andb].
    + destruct (downscale fuel st) as [yw|]; [|discriminate].
      intros [= <- <-]. cbn [inFallbackMode].
      split; [intros [H _]; discriminate H|trivial].
    + assert (Hfin : forall yw,
        Some (mkCommand (fst yw) (snd yw), mkState (fst yw) (snd yw) false)
        = Some (cmd, st') ->
        (false = false /\ false = false -> inFallbackMode st' = false) /\
        (~ (false = false /\ false = false) ->
         inFallbackMode st = true -> inFallbackMode st' = true)).
      { intros yw [= <- <-]. split; [reflexivity|]. intros H. tauto. }
      destruct (tooBrightAfterOverride st rd).
      * destruct (downscale fuel st) as [yw|]; [|discriminate]. apply Hfin.
      * apply Hfin.
Qed.

Lemma fallback_exit_rule_witness :
  (isTooDark (mkReading 2000 2000 2000 6000) = false /\
   F32.eqb (currentYellowRatio (mkState 30 19 true)
              (mkReading 2000 2000 2000 6000)) F32.neg_one = false ->
   inFallbackMode (mkState 33 19 false) = false) /\
  (~ (isTooDark (mkReading 2000 2000 2000 6000) = false /\
      F32.eqb (currentYellowRatio (mkState 30 19 true)
                 (mkReading 2000 2000 2000 6000)) F32.neg_one = false) ->
   inFallbackMode (mkState 30 19 true) = true ->
   inFallbackMode (mkState 33 19 false) = true).
Proof.
  apply (fallback_exit_rule 0 (mkState 30 19 true)
           (mkReading 2000 2000 2000 6000) (mkCommand 33 19)).
  vm_compute. reflexivity.
Defined.

(** C3.  With the fallback flag set, a reading that classifies as too
    bright is reclassified as comfortable: the downscale branch and its
    [while] loop are not entered (the result does not depend on [fuel]),
    and the command is the one the comfort branch computes for that state
    and reading.  The cycle ends with the flag cleared. *)
Theorem fallback_override_follows_comfort fuel st rd :
  state_ok st -> reading_ok rd ->
  inFallbackMode st = true -> isTooBright rd = true ->
  tooBrightAfterOverride st rd = false /\
  loop fuel st rd
  = Some (mkCommand (fst (comfort st rd)) (snd (comfort st rd)),
          mkState (fst (comfort st rd)) (snd (comfort st rd)) false).
Proof.
  intros Hst Hrd Hfb Hbright.
  assert (Hov : tooBrightAfterOverride st rd = false)
    by (unfold tooBrightAfterOverride; rewrite Hfb, Hbright; reflexivity).
  split; [exact Hov|].
  pose proof (halves_bounds st rd Hst Hrd) as (_ & _ & _ & _ & Hle).
  rewrite (isTooBright_exact rd Hrd) in Hbright. apply Z.ltb_lt in Hbright.
  assert (Hdark : isTooDark rd = false)
    by (rewrite (isTooDark_exact rd Hrd); apply Z.ltb_ge; lia).
  assert (Hdn : isDarkness st rd = false)
    by (rewrite (isDarkness_exact st rd Hst Hrd); apply Z.eqb_neq; lia).
  unfold loop, finish, exitFallback. rewrite Hdn, Hdark, Hov. reflexivity.
Qed.

Lemma fallback_override_follows_comfort_witness :
  tooBrightAfterOverride (mkState 30 19 true) (mkReading 2000 2000 2000 6000)
  = false /\
  loop 0 (mkState 30 19 true) (mkReading 2000 2000 2000 6000)
  = Some (mkCommand
            (fst (comfort (mkState 30 19 true) (mkReading 2000 2000 2000 6000)))
            (snd (comfort (mkState 30 19 true) (mkReading 2000 2000 2000 6000))),
          mkState
            (fst (comfort (mkState 30 19 true) (mkReading 2000 2000 2000 6000)))
            (snd (comfort (mkState 30 19 true) (mkReading 2000 2000 2000 6000)))
            false).
Proof.
  apply (fallback_override_follows_comfort 0 (mkState 30 19 true)
           (mkReading 2000 2000 2000 6000)).
  - unfold state_ok, level_ok, maxLEDIntensity. simpl. lia.
  - unfold reading_ok, uint16. simpl. lia.
  - reflexivity.
  - vm_compute. reflexivity.
Defined.

(** The sentinel -1 lies below the band. *)
Lemma in_band_not_sentinel x :
  outOfBand x = false -> F32.eqb x F32.neg_one = false.
Proof.
  unfold outOfBand. intros Hb. apply orb_false_elim in Hb.
  destruct Hb as [Hlow _].
  destruct (F32.eqb x F32.neg_one) eqn:He; [|reflexivity].
  assert (Hx : F32.ltb x band_low = true); [|congruence].
  apply eqb_finite_inv in He. subst x. vm_compute. reflexivity.
Qed.

(** The ratio depends on the two previous levels only. *)
Lemma currentYellowRatio_levels st rd fb :
  currentYellowRatio (mkState (prevYellowLED st) (prevWhiteLED st) fb) rd
  = currentYellowRatio st rd.
Proof. reflexivity. Qed.

Lemma comfort_in_band_step fuel st rd :
  isComfortable rd = true -> outOfBand (currentYellowRatio st rd) = false ->
  loop fuel st rd
  = Some (mkCommand (prevYellowLED st) (prevWhiteLED st),
          mkState (prevYellowLED st) (prevWhiteLED st) false).
Proof.
  intros Hc Hb. pose proof (in_band_not_sentinel _ Hb) as Hs.
  unfold isComfortable in Hc. apply andb_prop in Hc. destruct Hc as [Hd Hbr].
  apply negb_true_iff in Hd, Hbr.
  unfold outOfBand in Hb. apply orb_false_elim in Hb. destruct Hb as [Hlo Hhi].
  unfold loop, finish, exitFallback, isDarkness, tooBrightAfterOverride,
    comfort.
  rewrite Hs, Hd, Hbr, Hlo, Hhi, andb_false_r. reflexivity.
Qed.

(** C8.  When the reading is comfortable and the current ratio already
    lies inside the band, [loop()] leaves both levels as they were; called
    again and again with that reading it returns the same command and
    the same state every time. *)
Theorem comfort_in_band_idempotent fuel st rd n :
  isComfortable rd = true -> outOfBand (currentYellowRatio st rd) = false ->
  let cmd := mkCommand (prevYellowLED st) (prevWhiteLED st) in
  let st1 := mkState (prevYellowLED st) (prevWhiteLED st) false in
  loop fuel st rd = Some (cmd, st1) /\
  loop fuel st1 rd = Some (cmd, st1) /\
  run fuel st (repeat rd (S n)) = Some (repeat (cmd, st1) (S n)).
Proof.
  intros Hc Hb cmd st1.
  assert (H1 : loop fuel st rd = Some (cmd, st1))
    by (apply comfort_in_band_step; assumption).
  assert (H2 : loop fuel st1 rd = Some (cmd, st1)).
  { apply (comfort_in_band_step fuel st1 rd Hc).
    unfold st1. rewrite currentYellowRatio_levels. exact Hb. }
  assert (Hrun : forall k, run fuel st1 (repeat rd k)
                           = Some (repeat (cmd, st1) k)).
  { induction k as [|k IH]; [reflexivity|].
    cbn [repeat run]. rewrite H2, IH. reflexivity. }
  repeat split; try assumption.
  cbn [repeat run]. rewrite H1, Hrun. reflexivity.
Qed.

(** The hypothesis is on the reading: a too-bright reading met with the
    fallback flag set also takes the comfort branch, but that cycle clears
    the flag and the next one downscales. *)
Lemma override_cycle_then_downscale :
  loop 9 (mkState 60 40 true) (mkReading 1500 1500 1000 4000)
  = Some (mkCommand 60 40, mkState 60 40 false) /\
  loop 9 (mkState 60 40 false) (mkReading 1500 1500 1000 4000)
  = Some (mkCommand 54 36, mkState 54 36 false).
Proof. split; vm_compute; reflexivity. Qed.

Lemma comfort_in_band_idempotent_witness :
  loop 0 (mkState 50 0 true) (mkReading 100 100 100 300)
  = Some (mkCommand 50 0, mkState 50 0 false) /\
  loop 0 (mkState 50 0 false) (mkReading 100 100 100 300)
  = Some (mkCommand 50 0, mkState 50 0 false) /\
  run 0 (mkState 50 0 true) (repeat (mkReading 100 100 100 300) 3)
  = Some (repeat (mkCommand 50 0, mkState 50 0 false) 3).
Proof.
  apply (comfort_in_band_idempotent 0 (mkState 50 0 true)
           (mkReading 100 100 100 300) 2); vm_compute; reflexivity.
Defined.

(** C9.  In the comfort branch, a ratio below the band changes the yellow
    level only (the white level written is the previous white level), and
    a ratio above the band changes the white level only (the yellow level
    written is the previous yellow level). *)
Theorem comfort_frame fuel st rd :
  isDarkness st rd = false ->
  isTooDark rd || tooBrightAfterOverride st rd = false ->
  let ratio := currentYellowRatio st rd in
  exists cmd st',
    loop fuel st rd = Some (cmd, st') /\
    prevYellowLED st' = yellowLevel cmd /\
    prevWhiteLED st' = whiteLevel cmd /\
    (F32.ltb ratio band_low = true ->
     whiteLevel cmd = prevWhiteLED st /\
     yellowLevel cmd
     = Arduino.constrain
         (prevYellowLED st
          + Arduino.round
              (F32.mul (F32.mul gain (F32.sub targetYellowRatio ratio))
                       (F32.of_Z maxLEDIntensity)))
         0 maxLEDIntensity) /\
    (F32.ltb band_high ratio = true ->
     yellowLevel cmd = prevYellowLED st /\
     whiteLevel cmd
     = Arduino.constrain
         (prevWhiteLED st
          + Arduino.round
              (F32.mul (F32.mul gain (F32.sub ratio targetYellowRatio))
                       (F32.of_Z maxLEDIntensity)))
         0 maxLEDIntensity).
Proof.
  intros Hd Hz ratio. unfold loop. rewrite Hd, Hz. unfold finish.
  eexists _, _. split; [reflexivity|]. cbn [yellowLevel whiteLevel
    prevYellowLED prevWhiteLED]. split; [reflexivity|].
  split; [reflexivity|]. unfold comfort. fold ratio. split.
  - intros Hlo. rewrite Hlo. split; reflexivity.
  - intros Hhi.
    assert (Hlo : F32.ltb ratio band_low = false).
    { apply ltb_asym.
      apply (ltb_trans band_low band_high ratio); [reflexivity|exact Hhi]. }
    rewrite Hlo, Hhi. split; reflexivity.
Qed.

Lemma comfort_frame_witness :
  exists cmd st',
    loop 0 (mkState 30 19 true) (mkReading 2000 2000 2000 6000)
    = Some (cmd, st') /\
    prevYellowLED st' = yellowLevel cmd /\
    prevWhiteLED st' = whiteLevel cmd /\
    (F32.ltb (currentYellowRatio (mkState 30 19 true)
                (mkReading 2000 2000 2000 6000)) band_low = true ->
     whiteLevel cmd = 19 /\
     yellowLevel cmd
     = Arduino.constrain
         (30 + Arduino.round
                 (F32.mul
                    (F32.mul gain
                       (F32.sub targetYellowRatio
                          (currentYellowRatio (mkState 30 19 true)
                             (mkReading 2000 2000 2000 6000))))
                    (F32.of_Z maxLEDIntensity)))
         0 maxLEDIntensity) /\
    (F32.ltb band_high
       (currentYellowRatio (mkState 30 19 true)
          (mkReading 2000 2000 2000 6000)) = true ->
     yellowLevel cmd = 30 /\
     whiteLevel cmd
     = Arduino.constrain
         (19 + Arduino.round
                 (F32.mul
                    (F32.mul gain
                       (F32.sub
                          (currentYellowRatio (mkState 30 19 true)
                             (mkReading 2000 2000 2000 6000))
                          targetYellowRatio))
                    (F32.of_Z maxLEDIntensity)))
         0 maxLEDIntensity).
Proof.
  apply (comfort_frame 0 (mkState 30 19 true)
           (mkReading 2000 2000 2000 6000)); vm_compute; reflexivity.
Defined.

End Controller.

(** ** The SystemC model: the claims about the lamp module *)

Section LampModule.
Import Lamp.

Lemma forallb_range (P : Z -> bool) (lo : Z) (n : nat) :
  forallb P (map (fun i => lo + Z.of_nat i) (seq 0 n)) = true ->
  forall z, lo <= z < lo + Z.of_nat n -> P z = true.
Proof.
  intros Hall z Hz. rewrite forallb_forall in Hall. apply Hall.
  apply in_map_iff. exists (Z.to_nat (z - lo)). split; [lia|].
  apply in_seq. lia.
Qed.

(** Between the code's two limits the two ratios add up to [1.0]. *)
Lemma ratios_sum_interpolated t :
  warm_temp < t < cool_temp ->
  F32.eqb (F32.add (fst (ratio_map t warm_temp cool_temp))
                   (snd (ratio_map t warm_temp cool_temp))) F32.one = true.
Proof.
  intros Ht.
  apply (forallb_range
           (fun z => F32.eqb (F32.add (fst (ratio_map z warm_temp cool_temp))
                                      (snd (ratio_map z warm_temp cool_temp)))
                             F32.one) 2701 3799).
  - vm_compute. reflexivity.
  - unfold warm_temp, cool_temp in Ht. lia.
Qed.

Lemma ratios_sum t :
  F32.add (fst (ratio_map t warm_temp cool_temp))
          (snd (ratio_map t warm_temp cool_temp)) = F32.one.
Proof.
  destruct (Z.le_gt_cases t warm_temp) as [Hw|Hw].
  - unfold ratio_map. apply Z.leb_le in Hw. rewrite Hw. reflexivity.
  - destruct (Z.le_gt_cases cool_temp t) as [Hc|Hc].
    + unfold ratio_map. apply Z.leb_gt in Hw. rewrite Hw.
      apply Z.geb_le in Hc. rewrite Hc. reflexivity.
    + apply eqb_finite_inv. apply ratios_sum_interpolated. lia.
Qed.

(** C5, as stated, fails: 4500 K is not the midpoint of 2700 K and
    6500 K, and [ratio_map] does not return (0.5, 0.5) there. *)
Lemma ratio_map_4500_not_half :
  ratio_map 4500 2700 6500 <> (F32.half, F32.half).
Proof. vm_compute. discriminate. Qed.

(** C5, amended.  For [warm < cool] the map is (0, 1) up to [warm],
    (1, 0) from [cool] on and [(factor, 1 - factor)] in between, with
    [factor = (temp - warm) / (cool - warm)]; with the limits of the code,
    2700 and 6500, the two ratios add up to 1 for every temperature;
    the map is (0, 1) at 2700 and at 1500, (1, 0) at 6500, (0.5, 0.5) at
    the midpoint 4600, and at 4500 it is (9/19, 1 - 9/19). *)
Theorem ratio_map_piecewise temp warm cool :
  warm < cool ->
  (temp <= warm -> ratio_map temp warm cool = (F32.zero, F32.one)) /\
  (cool <= temp -> ratio_map temp warm cool = (F32.one, F32.zero)) /\
  (warm < temp < cool ->
   let factor := F32.div (F32.of_Z (temp - warm)) (F32.of_Z (cool - warm)) in
   ratio_map temp warm cool = (factor, F32.sub F32.one factor)) /\
  (forall t, F32.add (fst (ratio_map t warm_temp cool_temp))
                     (snd (ratio_map t warm_temp cool_temp)) = F32.one) /\
  ratio_map 2700 2700 6500 = (F32.zero, F32.one) /\
  ratio_map 6500 2700 6500 = (F32.one, F32.zero) /\
  ratio_map 1500 2700 6500 = (F32.zero, F32.one) /\
  ratio_map 4600 2700 6500 = (F32.half, F32.half) /\
  ratio_map 4500 2700 6500
  = (F32.dec 9 19, F32.sub F32.one (F32.dec 9 19)).
Proof.
  intros Hwc. unfold ratio_map at 1 2 3.
  split; [|split; [|split; [|split; [exact ratios_sum|]]]].
  - intros H. apply Z.leb_le in H. rewrite H. reflexivity.
  - intros H. replace (temp <=? warm) with false by (symmetry; apply Z.leb_gt; lia).
    apply Z.geb_le in H. rewrite H. reflexivity.
  - intros [H1 H2].
    replace (temp <=? warm) with false by (symmetry; apply Z.leb_gt; lia).
    replace (temp >=? cool) with false; [reflexivity|].
    symmetry. rewrite Z.geb_leb. apply Z.leb_gt. lia.
  - repeat split; vm_compute; reflexivity.
Qed.

Lemma ratio_map_piecewise_witness :
  ratio_map 4600 2700 6500
  = (F32.div (F32.of_Z (4600 - 2700)) (F32.of_Z (6500 - 2700)),
     F32.sub F32.one
       (F32.div (F32.of_Z (4600 - 2700)) (F32.of_Z (6500 - 2700)))).
Proof.
  refine (proj1 (proj2 (proj2 (ratio_map_piecewise 4600 2700 6500 _))) _);
    lia.
Defined.

(** C6.  For bounds [min_lux < max_lux], [clamp] returns the measured
    value when it lies between the bounds, the lower bound when it is
    below it and the upper bound when it is above it; so 50, 5000 and 500
    are sent to 150, 1000 and 500 by the bounds 150 and 1000. *)
Theorem clamp_saturates x lo hi :
  F32.ltb lo hi = true ->
  (F32.leb lo x = true -> F32.leb x hi = true -> clamp x lo hi = x) /\
  (F32.ltb x lo = true -> clamp x lo hi = lo) /\
  (F32.ltb hi x = true -> clamp x lo hi = hi) /\
  clamp (F32.of_Z 50) (F32.of_Z 150) (F32.of_Z 1000) = F32.of_Z 150 /\
  clamp (F32.of_Z 5000) (F32.of_Z 150) (F32.of_Z 1000) = F32.of_Z 1000 /\
  clamp (F32.of_Z 500) (F32.of_Z 150) (F32.of_Z 1000) = F32.of_Z 500.
Proof.
  intros Hlh. unfold clamp at 1 2 3.
  split; [|split; [|split; [|repeat split; vm_compute; reflexivity]]].
  - intros H1 H2. apply leb_not_ltb in H1, H2. rewrite H1, H2. reflexivity.
  - intros H. rewrite H. reflexivity.
  - intros H. rewrite H.
    rewrite (ltb_asym lo x (ltb_trans lo hi x Hlh H)). reflexivity.
Qed.

Lemma clamp_saturates_witness :
  (F32.leb (F32.of_Z 200) (F32.of_Z 640) = true ->
   F32.leb (F32.of_Z 640) (F32.of_Z 1300) = true ->
   clamp (F32.of_Z 640) (F32.of_Z 200) (F32.of_Z 1300) = F32.of_Z 640) /\
  (F32.ltb (F32.of_Z 640) (F32.of_Z 200) = true ->
   clamp (F32.of_Z 640) (F32.of_Z 200) (F32.of_Z 1300) = F32.of_Z 200) /\
  (F32.ltb (F32.of_Z 1300) (F32.of_Z 640) = true ->
   clamp (F32.of_Z 640) (F32.of_Z 200) (F32.of_Z 1300) = F32.of_Z 1300) /\
  clamp (F32.of_Z 50) (F32.of_Z 150) (F32.of_Z 1000) = F32.of_Z 150 /\
  clamp (F32.of_Z 5000) (F32.of_Z 150) (F32.of_Z 1000) = F32.of_Z 1000 /\
  clamp (F32.of_Z 500) (F32.of_Z 150) (F32.of_Z 1000) = F32.of_Z 500.
Proof.
  apply (clamp_saturates (F32.of_Z 640) (F32.of_Z 200) (F32.of_Z 1300)).
  vm_compute. reflexivity.
Defined.

(** The instance in the code: bounds 200 and 1300. *)
Lemma control_logic_examples t :
  control_logic (F32.of_Z 50) t = (F32.of_Z 200, t) /\
  control_logic (F32.of_Z 5000) t = (F32.of_Z 1300, t) /\
  control_logic (F32.of_Z 500) t = (F32.of_Z 500, t).
Proof. repeat split. Qed.

Lemma mul_comm x y : F32.mul x y = F32.mul y x.
Proof.
  unfold F32.mul, SFmul.
  destruct x as [sx|sx| |sx mx ex], y as [sy|sy| |sy my ey];
    try reflexivity; rewrite ?(xorb_comm sx sy); try reflexivity.
  rewrite (Pos.mul_comm mx my), (Z.add_comm ex ey). reflexivity.
Qed.

(** A current whose ratio is [0.0] is a zero with the sign of the total,
    and adding it to the other current changes nothing. *)
Lemma zero_share_neutral lux :
  F32.is_finite lux = true ->
  let z := F32.mul (F32.mul F32.zero lux) lux_to_amps in
  let t := F32.mul lux lux_to_amps in
  F32.add z t = t /\ F32.add t z = t.
Proof.
  destruct lux as [s|s| |s m e]; try discriminate; intros _.
  - destruct s; split; reflexivity.
  - unfold F32.mul, F32.zero, lux_to_amps, SFmul.
    rewrite xorb_false_l, xorb_false_r.
    pose proof (binary_round_aux_sign s (Zpos (m * 8589935)) (e + -33)
                  loc_Exact) as Hs.
    destruct (binary_round_aux F32.prec F32.emax s (Zpos (m * 8589935))
                (e + -33) loc_Exact) as [s'|s'| |s' m' e'];
      try subst s'; unfold F32.add, SFadd; split; try reflexivity;
      destruct s; reflexivity.
Qed.

(** C10, as stated, fails: at 200 lux and 4500 K the two currents, each
    rounded, do not add up to [lux_to_amps * target_lux]. *)
Lemma lamp_currents_sum_rounded :
  F32.add (fst (adjust_lamps (F32.of_Z 200) 4500))
          (snd (adjust_lamps (F32.of_Z 200) 4500))
  <> F32.mul lux_to_amps (F32.of_Z 200).
Proof. vm_compute. discriminate. Qed.

(** C10, amended.  At or below 2700 K and at or above 6500 K, where one
    ratio is 0 and the other 1, the two currents add up to
    [lux_to_amps * target_lux] for every finite [target_lux]; between the
    limits each current is rounded on its own and the sum need not be that
    product, although it is at 600 lux and 4500 K. *)
Theorem lamp_currents_partition_saturated lux temp :
  F32.valid lux = true -> F32.is_finite lux = true ->
  temp <= warm_temp \/ cool_temp <= temp ->
  F32.add (fst (adjust_lamps lux temp)) (snd (adjust_lamps lux temp))
  = F32.mul lux_to_amps lux /\
  F32.add (fst (adjust_lamps (F32.of_Z 600) 4500))
          (snd (adjust_lamps (F32.of_Z 600) 4500))
  = F32.mul lux_to_amps (F32.of_Z 600).
Proof.
  intros Hv Hf Ht. split; [|vm_compute; reflexivity].
  rewrite (mul_comm lux_to_amps lux).
  destruct (zero_share_neutral lux Hf) as [Hl Hr].
  unfold adjust_lamps, ratio_map.
  destruct (Z.leb_spec temp warm_temp) as [Hw|Hw].
  - cbn [fst snd]. rewrite (mul_one_l lux Hv Hf). exact Hl.
  - destruct Ht as [Ht|Ht]; [lia|].
    apply Z.geb_le in Ht. rewrite Ht.
    cbn [fst snd]. rewrite (mul_one_l lux Hv Hf). exact Hr.
Qed.

Lemma lamp_currents_partition_saturated_witness :
  F32.add (fst (adjust_lamps (F32.of_Z 600) 2700))
          (snd (adjust_lamps (F32.of_Z 600) 2700))
  = F32.mul lux_to_amps (F32.of_Z 600) /\
  F32.add (fst (adjust_lamps (F32.of_Z 600) 4500))
          (snd (adjust_lamps (F32.of_Z 600) 4500))
  = F32.mul lux_to_amps (F32.of_Z 600).
Proof.
  apply (lamp_currents_partition_saturated (F32.of_Z 600) 2700).
  - vm_compute. reflexivity.
  - vm_compute. reflexivity.
  - left. unfold warm_temp. lia.
Defined.

End LampModule.

(** ** More on the order of binary32 numbers *)

Section FloatOrderMore.

Lemma ltb_irrefl (x : F32.float) : F32.ltb x x = false.
Proof.
  destruct (F32.ltb x x) eqn:E; [|reflexivity].
  pose proof (ltb_asym x x E). congruence.
Qed.

Lemma ltb_leb (x y : F32.float) : F32.ltb x y = true -> F32.leb x y = true.
Proof.
  unfold F32.ltb, F32.leb, SFltb, SFleb.
  destruct (SFcompare x y) as [[ | | ]|]; congruence.
Qed.

Lemma compare_defined (x y : F32.float) :
  x <> S754_nan -> y <> S754_nan -> SFcompare x y <> None.
Proof.
  intros Hx Hy.
  destruct x as [sx|sx| |sx mx ex], y as [sy|sy| |sy my ey];
    try congruence; simpl; discriminate.
Qed.

Lemma leb_defined (x y : F32.float) :
  F32.leb x y = true -> x <> S754_nan /\ y <> S754_nan.
Proof.
  unfold F32.leb, SFleb.
  destruct x as [sx|sx| |sx mx ex], y as [sy|sy| |sy my ey];
    try discriminate; intros _; split; discriminate.
Qed.

(** Of two numbers, neither one a NaN, one is below the other or they
    are equal. *)
Lemma not_ltb_leb (x y : F32.float) :
  x <> S754_nan -> y <> S754_nan -> F32.ltb x y = false -> F32.leb y x = true.
Proof.
  intros Hx Hy. pose proof (compare_defined x y Hx Hy) as Hd.
  unfold F32.ltb, F32.leb, SFltb, SFleb. rewrite (SFcompare_antisym x y).
  destruct (SFcompare x y) as [[ | | ]|]; simpl; congruence.
Qed.

Lemma leb_refl (x : F32.float) : x <> S754_nan -> F32.leb x x = true.
Proof.
  intros Hx. apply not_ltb_leb; try assumption. apply ltb_irrefl.
Qed.

End FloatOrderMore.

(** ** The SystemC model: further properties *)

Section LampMore.
Import Lamp.

(** X9.  Whatever [rand()] returns, the sensor writes an illuminance from
    200 to 1300 and a colour temperature from 2700 to 6500, and
    [control_logic] passes both on unchanged: on the sensor's values the
    saturation never acts. *)
Theorem sensor_within_bounds rand_lux rand_temp :
  0 <= rand_lux -> 0 <= rand_temp ->
  let lux := fst (measure_ambient_conditions rand_lux rand_temp) in
  let temp := snd (measure_ambient_conditions rand_lux rand_temp) in
  (exists n, 200 <= n <= 1300 /\ lux = F32.of_Z n) /\
  2700 <= temp <= 6500 /\
  control_logic lux temp = (lux, temp).
Proof.
  intros Hl Ht lux temp. unfold lux, temp, measure_ambient_conditions.
  cbn [fst snd].
  pose proof (Z.rem_bound_pos rand_lux 1101 Hl ltac:(lia)) as Hn.
  pose proof (Z.rem_bound_pos rand_temp 3801 Ht ltac:(lia)) as Hk.
  set (n := Z.rem rand_lux 1101 + 200).
  assert (Hr : 200 <= n <= 1300) by (unfold n; lia).
  split; [exists n; split; [exact Hr|reflexivity]|]. split; [lia|].
  unfold control_logic, clamp. f_equal.
  rewrite (of_Z_half_units n) by (change (2 ^ 23) with 8388608; lia).
  change min_lux with (F32.half_units 400).
  change max_lux with (F32.half_units 2600).
  rewrite !ltb_half_units by (change (2 ^ 24) with 16777216; lia).
  replace (2 * n <? 400) with false by (symmetry; apply Z.ltb_ge; lia).
  replace (2600 <? 2 * n) with false by (symmetry; apply Z.ltb_ge; lia).
  reflexivity.
Qed.

Lemma sensor_within_bounds_witness :
  (exists n, 200 <= n <= 1300 /\
             fst (measure_ambient_conditions 1804289383 846930886) = F32.of_Z n) /\
  2700 <= snd (measure_ambient_conditions 1804289383 846930886) <= 6500 /\
  control_logic (fst (measure_ambient_conditions 1804289383 846930886))
                (snd (measure_ambient_conditions 1804289383 846930886))
  = (fst (measure_ambient_conditions 1804289383 846930886),
     snd (measure_ambient_conditions 1804289383 846930886)).
Proof.
  apply (sensor_within_bounds 1804289383 846930886); lia.
Defined.

(** X10.  [control_logic] never hands the lamp an illuminance outside
    [200, 1300], except that a NaN measurement is passed on as it is; the
    colour temperature is passed on untouched. *)
Theorem control_logic_range x t :
  x <> S754_nan ->
  F32.leb min_lux (fst (control_logic x t)) = true /\
  F32.leb (fst (control_logic x t)) max_lux = true /\
  snd (control_logic x t) = t /\
  control_logic S754_nan t = (S754_nan, t).
Proof.
  intros Hx.
  cut (F32.leb min_lux (fst (control_logic x t)) = true /\
       F32.leb (fst (control_logic x t)) max_lux = true);
    [intros [H1 H2]; repeat split; assumption|].
  unfold control_logic, clamp. cbn [fst].
  assert (Hmin : min_lux <> S754_nan) by discriminate.
  assert (Hmax : max_lux <> S754_nan) by discriminate.
  assert (Hmm : F32.leb min_lux max_lux = true) by reflexivity.
  destruct (F32.ltb x min_lux) eqn:E1.
  - split; [apply leb_refl; exact Hmin|exact Hmm].
  - destruct (F32.ltb max_lux x) eqn:E2.
    + split; [exact Hmm|apply leb_refl; exact Hmax].
    + split; apply not_ltb_leb; assumption.
Qed.

Lemma control_logic_range_witness :
  F32.leb min_lux (fst (control_logic (F32.of_Z 5000) 4000)) = true /\
  F32.leb (fst (control_logic (F32.of_Z 5000) 4000)) max_lux = true /\
  snd (control_logic (F32.of_Z 5000) 4000) = 4000 /\
  control_logic S754_nan 4000 = (S754_nan, 4000).
Proof.
  apply (control_logic_range (F32.of_Z 5000) 4000). vm_compute. discriminate.
Defined.

(** X11.  Saturating twice is saturating once: [control_logic] applied to
    its own result returns it unchanged. *)
Theorem control_logic_idempotent x t :
  control_logic (fst (control_logic x t)) (snd (control_logic x t))
  = control_logic x t.
Proof.
  unfold control_logic, clamp. cbn [fst snd]. f_equal.
  destruct (F32.ltb x min_lux) eqn:E1.
  - rewrite ltb_irrefl. reflexivity.
  - destruct (F32.ltb max_lux x) eqn:E2.
    + rewrite ltb_irrefl. reflexivity.
    + rewrite E1, E2. reflexivity.
Qed.

(** On the interpolated temperatures both ratios lie between 0 and 1 and
    a step of one kelvin raises the white ratio and lowers the yellow
    one. *)
Lemma ratio_steps t :
  warm_temp <= t < cool_temp ->
  let w := fun z => fst (ratio_map z warm_temp cool_temp) in
  let y := fun z => snd (ratio_map z warm_temp cool_temp) in
  F32.ltb (w t) (w (t + 1)) && F32.ltb (y (t + 1)) (y t)
  && F32.leb F32.zero (w t) && F32.leb (w t) F32.one
  && F32.leb F32.zero (y t) && F32.leb (y t) F32.one = true.
Proof.
  intros Ht w y.
  apply (forallb_range
           (fun t => F32.ltb (w t) (w (t + 1)) && F32.ltb (y (t + 1)) (y t)
                     && F32.leb F32.zero (w t) && F32.leb (w t) F32.one
                     && F32.leb F32.zero (y t) && F32.leb (y t) F32.one)
           2700 3800).
  - vm_compute. reflexivity.
  - unfold warm_temp, cool_temp in Ht. lia.
Qed.

Lemma ratio_map_below t :
  t <= warm_temp -> ratio_map t warm_temp cool_temp = (F32.zero, F32.one).
Proof.
  intros H. unfold ratio_map. apply Z.leb_le in H. rewrite H. reflexivity.
Qed.

Lemma ratio_map_above t :
  cool_temp <= t -> ratio_map t warm_temp cool_temp = (F32.one, F32.zero).
Proof.
  intros H. unfold ratio_map.
  replace (t <=? warm_temp) with false
    by (symmetry; apply Z.leb_gt; unfold warm_temp, cool_temp in *; lia).
  apply Z.geb_le in H. rewrite H. reflexivity.
Qed.

Lemma ratios_unit t :
  let w := fst (ratio_map t warm_temp cool_temp) in
  let y := snd (ratio_map t warm_temp cool_temp) in
  F32.leb F32.zero w = true /\ F32.leb w F32.one = true /\
  F32.leb F32.zero y = true /\ F32.leb y F32.one = true.
Proof.
  destruct (Z.le_gt_cases t warm_temp) as [Hw|Hw].
  - rewrite (ratio_map_below t Hw). repeat split.
  - destruct (Z.le_gt_cases cool_temp t) as [Hc|Hc].
    + rewrite (ratio_map_above t Hc). repeat split.
    + pose proof (ratio_steps t ltac:(lia)) as H. cbv zeta in H.
      repeat (apply andb_prop in H; destruct H as [H ?]).
      cbv zeta. repeat split; assumption.
Qed.

(** X12.  For every colour temperature both ratios are finite numbers
    between 0 and 1: neither LED is asked for a negative share, for more
    than the whole, or for a NaN. *)
Theorem ratios_within_unit t :
  let w := fst (ratio_map t warm_temp cool_temp) in
  let y := snd (ratio_map t warm_temp cool_temp) in
  F32.leb F32.zero w = true /\ F32.leb w F32.one = true /\
  F32.leb F32.zero y = true /\ F32.leb y F32.one = true /\
  F32.is_finite w = true /\ F32.is_finite y = true.
Proof.
  pose proof (ratios_unit t) as (H1 & H2 & H3 & H4). cbv zeta in *.
  repeat split; try assumption.
  - destruct (fst (ratio_map t warm_temp cool_temp)) as [s|s| |s m e];
      try reflexivity; try discriminate. destruct s; discriminate.
  - destruct (snd (ratio_map t warm_temp cool_temp)) as [s|s| |s m e];
      try reflexivity; try discriminate. destruct s; discriminate.
Qed.

(** X13.  Between 2700 K and 6500 K the white ratio grows strictly with
    the temperature and the yellow ratio falls strictly: two different
    temperatures in that range never get the same mix.  Over all
    temperatures the white ratio never falls as the temperature rises. *)
Theorem white_ratio_increasing t1 t2 :
  t1 < t2 ->
  let w := fun z => fst (ratio_map z warm_temp cool_temp) in
  let y := fun z => snd (ratio_map z warm_temp cool_temp) in
  (warm_temp <= t1 -> t2 <= cool_temp ->
   F32.ltb (w t1) (w t2) = true /\ F32.ltb (y t2) (y t1) = true) /\
  F32.leb (w t1) (w t2) = true /\ F32.leb (y t2) (y t1) = true.
Proof.
  intros Hlt w y.
  assert (Hstrict : forall k a, warm_temp <= a -> a + Z.of_nat (S k) <= cool_temp ->
            F32.ltb (w a) (w (a + Z.of_nat (S k))) = true /\
            F32.ltb (y (a + Z.of_nat (S k))) (y a) = true).
  { induction k as [|k IH]; intros a Ha Hb.
    - pose proof (ratio_steps a ltac:(lia)) as H. cbv zeta in H.
      repeat (apply andb_prop in H; destruct H as [H ?]).
      change (Z.of_nat 1) with 1. split; assumption.
    - destruct (IH a Ha ltac:(lia)) as [H1 H2].
      pose proof (ratio_steps (a + Z.of_nat (S k)) ltac:(lia)) as H.
      cbv zeta in H.
      repeat (apply andb_prop in H; destruct H as [H ?]).
      replace (a + Z.of_nat (S (S k))) with (a + Z.of_nat (S k) + 1) by lia.
      split; [eapply ltb_trans|eapply ltb_trans]; eassumption. }
  assert (Hin : forall a b, warm_temp <= a -> a < b -> b <= cool_temp ->
            F32.ltb (w a) (w b) = true /\ F32.ltb (y b) (y a) = true).
  { intros a b Ha Hab Hb.
    replace b with (a + Z.of_nat (S (Z.to_nat (b - a - 1)))) by lia.
    apply Hstrict; lia. }
  split; [intros Ha Hb; apply Hin; assumption|].
  set (c := fun z => Z.max warm_temp (Z.min cool_temp z)).
  assert (Hc : forall z, ratio_map z warm_temp cool_temp
                         = ratio_map (c z) warm_temp cool_temp).
  { intros z. unfold c.
    destruct (Z.le_gt_cases z warm_temp) as [Hw|Hw].
    - rewrite (ratio_map_below z Hw), ratio_map_below; [reflexivity|].
      unfold warm_temp, cool_temp in *. lia.
    - destruct (Z.le_gt_cases cool_temp z) as [Hk|Hk].
      + rewrite (ratio_map_above z Hk), ratio_map_above; [reflexivity|].
        unfold warm_temp, cool_temp in *. lia.
      + f_equal. lia. }
  unfold w, y. rewrite (Hc t1), (Hc t2).
  assert (Hr : warm_temp <= c t1 /\ c t1 <= c t2 /\ c t2 <= cool_temp)
    by (unfold c, warm_temp, cool_temp; lia).
  destruct (Z.eq_dec (c t1) (c t2)) as [E|E].
  - rewrite E. pose proof (ratios_unit (c t2)) as (H1 & _ & H3 & _).
    cbv zeta in H1, H3.
    split; apply leb_refl; [exact (proj2 (leb_defined _ _ H1))
                           |exact (proj2 (leb_defined _ _ H3))].
  - destruct (Hin (c t1) (c t2)) as [H1 H2]; try lia.
    split; apply ltb_leb; assumption.
Qed.

Lemma white_ratio_increasing_witness :
  (warm_temp <= 3000 -> 5000 <= cool_temp ->
   F32.ltb (fst (ratio_map 3000 warm_temp cool_temp))
           (fst (ratio_map 5000 warm_temp cool_temp)) = true /\
   F32.ltb (snd (ratio_map 5000 warm_temp cool_temp))
           (snd (ratio_map 3000 warm_temp cool_temp)) = true) /\
  F32.leb (fst (ratio_map 3000 warm_temp cool_temp))
          (fst (ratio_map 5000 warm_temp cool_temp)) = true /\
  F32.leb (snd (ratio_map 5000 warm_temp cool_temp))
          (snd (ratio_map 3000 warm_temp cool_temp)) = true.
Proof.
  apply (white_ratio_increasing 3000 5000). lia.
Defined.

Lemma shr_1_nonneg mrs : 0 <= shr_m mrs -> 0 <= shr_m (shr_1 mrs).
Proof.
  destruct mrs as [m rb sb]. cbn [shr_m]. intros Hm. unfold shr_1.
  destruct m as [|[p|p|]|p]; cbn [shr_m]; lia.
Qed.

Lemma shr_fexp_nonneg M E l :
  0 <= M -> 0 <= shr_m (fst (shr_fexp F32.prec F32.emax M E l)).
Proof.
  intros HM. unfold shr_fexp, shr.
  assert (H0 : 0 <= shr_m (shr_record_of_loc M l))
    by (destruct l as [|[ | | ]]; exact HM).
  destruct (fexp F32.prec F32.emax (Zdigits2 M + E) - E) as [|p|p];
    cbn [fst]; try exact H0.
  rewrite iter_pos_iter. apply Pos.iter_invariant; [|exact H0].
  intros mrs. apply shr_1_nonneg.
Qed.

(** Rounding a non-negative mantissa with the sign bit clear gives a
    number that is neither negative nor a NaN. *)
Lemma binary_round_aux_nonneg M E l :
  0 <= M ->
  F32.leb F32.zero (binary_round_aux F32.prec F32.emax false M E l) = true.
Proof.
  intros HM. unfold binary_round_aux.
  pose proof (shr_fexp_nonneg M E l HM) as H1.
  destruct (shr_fexp F32.prec F32.emax M E l) as [mrs' e']. cbn [fst] in H1.
  assert (H2 : 0 <= round_nearest_even (shr_m mrs') (loc_of_shr_record mrs')).
  { unfold round_nearest_even.
    destruct (loc_of_shr_record mrs') as [|[ | | ]]; try lia.
    destruct (Z.even (shr_m mrs')); lia. }
  pose proof (shr_fexp_nonneg _ e' loc_Exact H2) as H3.
  destruct (shr_fexp F32.prec F32.emax _ e' loc_Exact) as [mrs'' e''].
  cbn [fst] in H3.
  destruct (shr_m mrs'') as [|p|p]; try lia; [reflexivity|].
  destruct (e'' <=? F32.emax - F32.prec); reflexivity.
Qed.

Lemma mul_nonneg_finite x m e :
  F32.leb F32.zero x = true ->
  F32.leb F32.zero (F32.mul x (S754_finite false m e)) = true.
Proof.
  destruct x as [s|s| |s mx ex]; try discriminate.
  - intros _. reflexivity.
  - destruct s; [discriminate|]. intros _. reflexivity.
  - destruct s; [discriminate|]. intros _.
    unfold F32.mul, SFmul. cbn [xorb].
    apply binary_round_aux_nonneg. lia.
Qed.

(** X14.  For a finite target illuminance that is not negative, neither
    current written by [adjust_lamps] is negative or a NaN, whatever the
    colour temperature. *)
Theorem lamp_currents_nonnegative lux t :
  F32.is_finite lux = true -> F32.leb F32.zero lux = true ->
  F32.leb F32.zero (fst (adjust_lamps lux t)) = true /\
  F32.leb F32.zero (snd (adjust_lamps lux t)) = true.
Proof.
  intros Hf Hl.
  pose proof (ratios_unit t) as (Hw0 & Hw1 & Hy0 & Hy1).
  cbv zeta in Hw0, Hw1, Hy0, Hy1.
  unfold adjust_lamps.
  destruct (ratio_map t warm_temp cool_temp) as [w y]. cbn [fst snd] in *.
  assert (Hshare : forall q, F32.leb F32.zero q = true ->
                             F32.leb q F32.one = true ->
            F32.leb F32.zero (F32.mul (F32.mul q lux) lux_to_amps) = true).
  { intros q Hq0 Hq1. apply mul_nonneg_finite.
    destruct lux as [s|s| |s m e]; try discriminate.
    - destruct q as [sq|sq| |sq mq eq]; try discriminate; try reflexivity.
      destruct sq; discriminate.
    - destruct s; [discriminate|]. apply mul_nonneg_finite. exact Hq0. }
  split; apply Hshare; assumption.
Qed.

Lemma lamp_currents_nonnegative_witness :
  F32.leb F32.zero (fst (adjust_lamps (F32.of_Z 600) 4500)) = true /\
  F32.leb F32.zero (snd (adjust_lamps (F32.of_Z 600) 4500)) = true.
Proof.
  apply (lamp_currents_nonnegative (F32.of_Z 600) 4500);
    vm_compute; reflexivity.
Defined.

End LampMore.

(** ** The sketch: further properties of [loop()] *)

Section ControllerModes.
Import LED.

(** X1.  For 16-bit raw counts the ambient total is computed without
    rounding, so the classification reads on the counts: with
    [a = (r + g) + 2 * min(r, min(g, b))] (twice the ambient total), the
    reading is too dark exactly when [a < 296], too bright exactly when
    [a > 2004], comfortable in between, and never both too dark and too
    bright. *)
Theorem classification_thresholds rd :
  reading_ok rd ->
  isTooDark rd = (ambientHalves rd <? 296) /\
  isTooBright rd = (2004 <? ambientHalves rd) /\
  isComfortable rd = ((296 <=? ambientHalves rd) && (ambientHalves rd <=? 2004)) /\
  isTooDark rd && isTooBright rd = false.
Proof.
  intros Hrd. unfold isComfortable.
  rewrite (isTooDark_exact rd Hrd), (isTooBright_exact rd Hrd).
  repeat split; try reflexivity.
  - rewrite !Z.ltb_antisym, !negb_involutive. reflexivity.
  - destruct (Z.ltb_spec (ambientHalves rd) 296);
      destruct (Z.ltb_spec 2004 (ambientHalves rd)); try reflexivity; lia.
Qed.

Lemma classification_thresholds_witness :
  isTooDark (mkReading 100 120 90 300) = (ambientHalves (mkReading 100 120 90 300) <? 296) /\
  isTooBright (mkReading 100 120 90 300) = (2004 <? ambientHalves (mkReading 100 120 90 300)) /\
  isComfortable (mkReading 100 120 90 300)
  = ((296 <=? ambientHalves (mkReading 100 120 90 300))
     && (ambientHalves (mkReading 100 120 90 300) <=? 2004)) /\
  isTooDark (mkReading 100 120 90 300) && isTooBright (mkReading 100 120 90 300) = false.
Proof.
  apply (classification_thresholds (mkReading 100 120 90 300)).
  unfold reading_ok, uint16. simpl. lia.
Defined.

(** X2.  The darkness mode is entered exactly when both LEDs are off and
    the red and green counts are 0, whatever the blue and clear counts;
    such a reading is also too dark, and with an LED on the cycle is
    never a darkness cycle. *)
Theorem darkness_iff_all_off st rd :
  state_ok st -> reading_ok rd ->
  (isDarkness st rd = true <->
   prevYellowLED st = 0 /\ prevWhiteLED st = 0 /\ r rd = 0 /\ g rd = 0) /\
  (isDarkness st rd = true -> isTooDark rd = true) /\
  (0 < prevYellowLED st \/ 0 < prevWhiteLED st -> isDarkness st rd = false).
Proof.
  intros Hst Hrd.
  pose proof (min3_bounds rd Hrd) as Hm. unfold uint16 in Hm.
  pose proof Hrd as (Hr & Hg & Hb & Hc). unfold uint16 in Hr, Hg.
  pose proof Hst as [[Hy1 Hy2] [Hw1 Hw2]].
  rewrite (isDarkness_exact st rd Hst Hrd), (isTooDark_exact rd Hrd).
  unfold yellowHalves, whiteHalves, ambientHalves.
  assert (Hmin : r rd = 0 ->
                 Arduino.min (r rd) (Arduino.min (g rd) (b rd)) = 0).
  { intros H0. unfold Arduino.min at 1. rewrite H0.
    destruct (0 <? Arduino.min (g rd) (b rd)) eqn:E; [reflexivity|].
    apply Z.ltb_ge in E. rewrite H0 in Hm. unfold Arduino.min at 1 in Hm.
    rewrite (proj2 (Z.ltb_ge _ _) E) in Hm. lia. }
  split; [|split].
  - rewrite Z.eqb_eq. split.
    + intros H. lia.
    + intros (H1 & H2 & H3 & H4). rewrite (Hmin H3). lia.
  - rewrite Z.eqb_eq. intros H. apply Z.ltb_lt. lia.
  - intros H. apply Z.eqb_neq. lia.
Qed.

Lemma darkness_iff_all_off_witness :
  (isDarkness (mkState 0 0 false) (mkReading 0 0 40 12) = true <->
   0 = 0 /\ 0 = 0 /\ 0 = 0 /\ 0 = 0) /\
  (isDarkness (mkState 0 0 false) (mkReading 0 0 40 12) = true ->
   isTooDark (mkReading 0 0 40 12) = true) /\
  (0 < 0 \/ 0 < 0 ->
   isDarkness (mkState 0 0 false) (mkReading 0 0 40 12) = false).
Proof.
  apply (darkness_iff_all_off (mkState 0 0 false) (mkReading 0 0 40 12)).
  - unfold state_ok, level_ok, maxLEDIntensity. simpl. lia.
  - unfold reading_ok, uint16. simpl. lia.
Defined.

(** The proportional downscale on the whole PWM range. *)
Lemma scale_table x :
  0 <= x <= 255 -> (scale x <=? x) && Bool.eqb (scale x =? x) (x <=? 5) = true.
Proof.
  intros Hx.
  apply (forallb_range
           (fun z => (scale z <=? z) && Bool.eqb (scale z =? z) (z <=? 5))
           0 256); [vm_compute; reflexivity|lia].
Qed.

Lemma scale_below x :
  level_ok x -> 0 <= scale x <= x /\ (scale x = x <-> x <= 5).
Proof.
  intros Hx. pose proof (scale_ok x) as [Hs _].
  unfold level_ok, maxLEDIntensity in Hx.
  pose proof (scale_table x Hx) as Ht. apply andb_prop in Ht.
  destruct Ht as [Hle Heq]. apply Z.leb_le in Hle. apply eqb_prop in Heq.
  split; [lia|]. rewrite <- Z.eqb_eq, <- Z.leb_le, Heq. reflexivity.
Qed.

(** X3.  Rescaling by 0.9 never raises a level and never leaves the PWM
    range; it lowers every level above 5 and leaves every level up to 5
    as it is, so that repeated rescaling stalls at 5 and never reaches
    0. *)
Theorem scale_shrinks x :
  level_ok x ->
  0 <= scale x <= x /\
  (x <= 5 -> scale x = x) /\
  (5 < x -> 5 <= scale x < x).
Proof.
  intros Hx. pose proof (scale_below x Hx) as [Hle Hiff].
  split; [exact Hle|]. split; [apply Hiff|]. intros H5.
  assert (scale x <> x) by (intros E; apply Hiff in E; lia).
  split; [|lia].
  destruct (Z.le_gt_cases 5 (scale x)) as [|Hlt]; [assumption|].
  pose proof (scale_below (scale x) (scale_ok x)) as [_ Hiff'].
  unfold level_ok, maxLEDIntensity in Hx.
  assert (Hmono : (5 <? x) && (scale x <? 5) = false).
  { apply negb_true_iff.
    apply (forallb_range (fun z => negb ((5 <? z) && (scale z <? 5))) 0 256);
      [vm_compute; reflexivity|lia]. }
  rewrite (proj2 (Z.ltb_lt 5 x) H5), (proj2 (Z.ltb_lt (scale x) 5) Hlt) in Hmono.
  discriminate Hmono.
Qed.

Lemma scale_shrinks_witness :
  0 <= scale 200 <= 200 /\
  (200 <= 5 -> scale 200 = 200) /\
  (5 < 200 -> 5 <= scale 200 < 200).
Proof.
  apply (scale_shrinks 200). unfold level_ok, maxLEDIntensity. lia.
Defined.

(** A pass of the loop leaves the two levels as they are or lowers one
    of them. *)
Lemma rebalanceStep_progress yw :
  levels_ok yw ->
  rebalanceStep yw = yw \/
  (levels_ok (rebalanceStep yw) /\
   fst (rebalanceStep yw) <= fst yw /\ snd (rebalanceStep yw) <= snd yw /\
   0 <= fst (rebalanceStep yw) + snd (rebalanceStep yw) < fst yw + snd yw).
Proof.
  intros Hok. pose proof (rebalanceStep_ok yw Hok) as Hok'.
  destruct yw as [y w]. destruct Hok as [Hy Hw]. cbn [fst snd] in *.
  pose proof (scale_below y Hy) as [Hsy Hey].
  pose proof (scale_below w Hw) as [Hsw Hew].
  unfold level_ok in Hy, Hw.
  unfold rebalanceStep in *.
  destruct (F32.ltb band_high (ratioOf y w)).
  - destruct (Z.eq_dec (scale y) y) as [E|E]; [left; rewrite E; reflexivity|].
    right. split; [exact Hok'|]. cbn [fst snd]. clear Hey Hew Hok'.
    generalize dependent (scale y). intros sy Hsy E. lia.
  - destruct (F32.ltb (ratioOf y w) band_low); [|left; reflexivity].
    destruct (Z.eq_dec (scale w) w) as [E|E]; [left; rewrite E; reflexivity|].
    right. split; [exact Hok'|]. cbn [fst snd]. clear Hey Hew Hok'.
    generalize dependent (scale w). intros sw Hsw E. lia.
Qed.

(** X4.  The [while] loop needs at most as many passes as the sum of the
    two levels it starts from: if it stops at all, it has stopped by
    then, with the same result.  For a whole cycle of [loop()] that bound
    is the sum of the two previous levels, at most 510. *)
Theorem loop_bounded_passes fuel st rd out :
  state_ok st -> loop fuel st rd = Some out ->
  loop (Z.to_nat (prevYellowLED st + prevWhiteLED st)) st rd = Some out.
Proof.
  intros Hst.
  assert (Hreb : forall f yw yw',
    levels_ok yw -> rebalance f yw = Some yw' ->
    rebalance (Z.to_nat (fst yw + snd yw)) yw = Some yw').
  { induction f as [|f IH]; intros yw yw' Hok; simpl.
    - destruct (outOfBand (ratioOf (fst yw) (snd yw))) eqn:Hb; [discriminate|].
      intros [= <-]. destruct (Z.to_nat (fst yw + snd yw)); simpl;
        rewrite Hb; reflexivity.
    - destruct (outOfBand (ratioOf (fst yw) (snd yw))) eqn:Hb.
      + intros Hr.
        destruct (rebalanceStep_progress yw Hok) as [Hs|(Hok' & _ & _ & Hlt)].
        * rewrite Hs in Hr. rewrite (rebalance_stuck yw Hb Hs f) in Hr.
          discriminate.
        * pose proof (IH _ _ Hok' Hr) as Hr'.
          destruct (Z.to_nat (fst yw + snd yw)) as [|k] eqn:Hk; [lia|].
          simpl. rewrite Hb.
          refine (rebalance_fuel_mono _ k _ _ _ Hr'). lia.
      + intros [= <-]. destruct (Z.to_nat (fst yw + snd yw)); simpl;
          rewrite Hb; reflexivity. }
  unfold loop. destruct (isDarkness st rd); [trivial|].
  destruct (isTooDark rd || tooBrightAfterOverride st rd); [|trivial].
  unfold downscale.
  destruct (rebalance fuel _) as [yw|] eqn:Hr; [|discriminate].
  intros Hout.
  assert (Hok : levels_ok (scale (prevYellowLED st), scale (prevWhiteLED st)))
    by (split; apply scale_ok).
  apply Hreb in Hr; [|exact Hok]. cbn [fst snd] in Hr.
  destruct Hst as [Hy Hw].
  pose proof (scale_below _ Hy) as [Hsy _].
  pose proof (scale_below _ Hw) as [Hsw _].
  assert (Hle : (Z.to_nat (scale (prevYellowLED st) + scale (prevWhiteLED st))
                 <= Z.to_nat (prevYellowLED st + prevWhiteLED st))%nat) by lia.
  rewrite (rebalance_fuel_mono _ _ _ _ Hle Hr). exact Hout.
Qed.

Lemma loop_bounded_passes_witness :
  loop (Z.to_nat (200 + 50)) (mkState 200 50 false) (mkReading 2000 2000 2000 6000)
  = Some (mkCommand 69 45, mkState 69 45 false).
Proof.
  apply (loop_bounded_passes 9 (mkState 200 50 false)
           (mkReading 2000 2000 2000 6000)).
  - unfold state_ok, level_ok, maxLEDIntensity. simpl. lia.
  - vm_compute. reflexivity.
Defined.

Lemma downscale_below fuel st y w :
  state_ok st -> downscale fuel st = Some (y, w) ->
  0 <= y <= prevYellowLED st /\ 0 <= w <= prevWhiteLED st.
Proof.
  intros [Hy Hw].
  assert (Hreb : forall f yw yw',
    levels_ok yw -> rebalance f yw = Some yw' ->
    levels_ok yw' /\ fst yw' <= fst yw /\ snd yw' <= snd yw).
  { induction f as [|f IH]; intros yw yw' Hok; simpl;
      destruct (outOfBand (ratioOf (fst yw) (snd yw)));
      try discriminate; try (intros [= <-]; repeat split; try apply Hok; lia).
    intros Hr.
    destruct (rebalanceStep_progress yw Hok) as [Hs|(Hok' & H1 & H2 & _)].
    - rewrite Hs in Hr. exact (IH _ _ Hok Hr).
    - destruct (IH _ _ Hok' Hr) as (Hk & H3 & H4).
      repeat split; try apply Hk; lia. }
  unfold downscale.
  destruct (rebalance fuel _) as [[y0 w0]|] eqn:Hr; [|discriminate].
  apply Hreb in Hr; [|split; apply scale_ok].
  destruct Hr as ([Hy0 Hw0] & H1 & H2). cbn [fst snd] in *.
  pose proof (scale_below _ Hy) as [Hsy _].
  pose proof (scale_below _ Hw) as [Hsw _].
  unfold level_ok in Hy0, Hw0. unfold applyCutoff.
  destruct (y0 <=? cutoff).
  - change (0 <=? cutoff) with true. intros [= <- <-]. lia.
  - destruct (w0 <=? cutoff); intros [= <- <-]; lia.
Qed.

(** X5.  A too-dark or too-bright cycle never brightens an LED: when such
    a cycle completes, each level written is at most the previous level of
    that LED. *)
Theorem downscale_never_brightens fuel st rd cmd st' :
  state_ok st ->
  isDarkness st rd = false ->
  isTooDark rd || tooBrightAfterOverride st rd = true ->
  loop fuel st rd = Some (cmd, st') ->
  0 <= yellowLevel cmd <= prevYellowLED st /\
  0 <= whiteLevel cmd <= prevWhiteLED st.
Proof.
  intros Hst Hd Hz. unfold loop. rewrite Hd, Hz.
  destruct (downscale fuel st) as [[y w]|] eqn:Hds; [|discriminate].
  intros [= <- _]. cbn [finish fst snd yellowLevel whiteLevel].
  exact (downscale_below fuel st y w Hst Hds).
Qed.

Lemma downscale_never_brightens_witness :
  0 <= yellowLevel (mkCommand 69 45) <= 200 /\
  0 <= whiteLevel (mkCommand 69 45) <= 50.
Proof.
  apply (downscale_never_brightens 9 (mkState 200 50 false)
           (mkReading 2000 2000 2000 6000) (mkCommand 69 45)
           (mkState 69 45 false)).
  - unfold state_ok, level_ok, maxLEDIntensity. simpl. lia.
  - vm_compute. reflexivity.
  - vm_compute. reflexivity.
  - vm_compute. reflexivity.
Defined.

(** X6.  What a too-dark or too-bright cycle writes when it completes:
    either both LEDs off, or both levels above the cutoff 5 with the yellow
    share of the two levels inside the band; never one LED on alone and
    never a level from 1 to 5. *)
Theorem downscale_output_shape fuel st rd cmd st' :
  isDarkness st rd = false ->
  isTooDark rd || tooBrightAfterOverride st rd = true ->
  loop fuel st rd = Some (cmd, st') ->
  (yellowLevel cmd = 0 /\ whiteLevel cmd = 0) \/
  (5 < yellowLevel cmd /\ 5 < whiteLevel cmd /\
   outOfBand (ratioOf (yellowLevel cmd) (whiteLevel cmd)) = false).
Proof.
  intros Hd Hz. unfold loop. rewrite Hd, Hz. unfold downscale.
  destruct (rebalance fuel _) as [[y0 w0]|] eqn:Hr; [|discriminate].
  apply rebalance_exit in Hr. cbn [fst snd] in Hr.
  unfold finish, applyCutoff. unfold cutoff.
  destruct (Z.leb_spec y0 5).
  - intros [= <- _]. left. split; reflexivity.
  - destruct (Z.leb_spec w0 5); intros [= <- _]; cbn [yellowLevel whiteLevel].
    + left. split; reflexivity.
    + right. repeat split; assumption.
Qed.

Lemma downscale_output_shape_witness :
  (yellowLevel (mkCommand 69 45) = 0 /\ whiteLevel (mkCommand 69 45) = 0) \/
  (5 < yellowLevel (mkCommand 69 45) /\ 5 < whiteLevel (mkCommand 69 45) /\
   outOfBand (ratioOf (yellowLevel (mkCommand 69 45))
                      (whiteLevel (mkCommand 69 45))) = false).
Proof.
  apply (downscale_output_shape 9 (mkState 200 50 false)
           (mkReading 2000 2000 2000 6000) (mkCommand 69 45)
           (mkState 69 45 false)); vm_compute; reflexivity.
Defined.

(** X7.  With both previous levels at most 5, a too-dark or too-bright
    cycle never returns, except from the levels 3 and 2: rescaling cannot
    lower such levels and their ratio is outside the band, so the [while]
    loop runs for ever.  The power-up state, both levels 0, is one of
    them. *)
Theorem low_levels_hang fuel st rd :
  state_ok st ->
  prevYellowLED st <= 5 -> prevWhiteLED st <= 5 ->
  (prevYellowLED st, prevWhiteLED st) <> (3, 2) ->
  isDarkness st rd = false ->
  isTooDark rd || tooBrightAfterOverride st rd = true ->
  loop fuel st rd = None.
Proof.
  intros [[Hy0 _] [Hw0 _]] Hy Hw Hne Hd Hz.
  unfold loop. rewrite Hd, Hz. unfold downscale.
  set (y := prevYellowLED st) in *. set (w := prevWhiteLED st) in *.
  assert (Hstuck : scale y = y /\ scale w = w /\
                   outOfBand (ratioOf y w) = true /\
                   rebalanceStep (y, w) = (y, w)).
  { assert (Hyc : y = 0 \/ y = 1 \/ y = 2 \/ y = 3 \/ y = 4 \/ y = 5) by lia.
    assert (Hwc : w = 0 \/ w = 1 \/ w = 2 \/ w = 3 \/ w = 4 \/ w = 5) by lia.
    clearbody y w.
    destruct Hyc as [->|[->|[->|[->|[->| ->]]]]];
      destruct Hwc as [->|[->|[->|[->|[->| ->]]]]];
      try (exfalso; apply Hne; reflexivity);
      repeat split; vm_compute; reflexivity. }
  destruct Hstuck as (-> & -> & Hb & Hs).
  rewrite (rebalance_stuck (y, w) Hb Hs fuel). reflexivity.
Qed.

Lemma low_levels_hang_witness :
  loop 1000 (mkState 2 0 false) (mkReading 2000 2000 2000 6000) = None.
Proof.
  apply (low_levels_hang 1000 (mkState 2 0 false)
           (mkReading 2000 2000 2000 6000)).
  - unfold state_ok, level_ok, maxLEDIntensity. simpl. lia.
  - simpl. lia.
  - simpl. lia.
  - discriminate.
  - vm_compute. reflexivity.
  - vm_compute. reflexivity.
Defined.

(** [loop()] sees a reading through the two ambient estimates only. *)
Lemma loop_ambient fuel st rd rd' :
  ambientWhite rd = ambientWhite rd' -> ambientYellow rd = ambientYellow rd' ->
  loop fuel st rd = loop fuel st rd'.
Proof.
  intros Hw Hy.
  unfold loop, finish, exitFallback, comfort, tooBrightAfterOverride,
    isDarkness, isTooDark, isTooBright, currentYellowRatio, total, YOI, WOI,
    ambientTotal.
  rewrite Hw, Hy. reflexivity.
Qed.

Lemma loop_fuel_mono fuel fuel' st rd out :
  (fuel <= fuel')%nat -> loop fuel st rd = Some out ->
  loop fuel' st rd = Some out.
Proof.
  intros Hle. unfold loop. destruct (isDarkness st rd); [trivial|].
  destruct (isTooDark rd || tooBrightAfterOverride st rd); [|trivial].
  unfold downscale.
  destruct (rebalance fuel _) as [yw|] eqn:Hr; [|discriminate].
  rewrite (rebalance_fuel_mono _ _ _ _ Hle Hr). trivial.
Qed.

Lemma run_fuel_mono fuel fuel' rds : forall st tr,
  (fuel <= fuel')%nat -> run fuel st rds = Some tr ->
  run fuel' st rds = Some tr.
Proof.
  induction rds as [|rd rds IH]; intros st tr Hle; simpl; [trivial|].
  destruct (loop fuel st rd) as [[cmd st']|] eqn:Hl; [|discriminate].
  rewrite (loop_fuel_mono _ _ _ _ _ Hle Hl).
  destruct (run fuel st' rds) as [tr'|] eqn:Hr; [|discriminate].
  rewrite (IH _ _ Hle Hr). trivial.
Qed.

Lemma last_cons {A : Type} (l : list A) : forall a d,
  last (a :: l) d = last l a.
Proof.
  induction l as [|x l IH]; intros a d; [reflexivity|].
  change (last (a :: x :: l) d) with (last (x :: l) d).
  rewrite (IH x d), (IH x a). reflexivity.
Qed.

(** Two runs in a row are one run over the two lists of readings. *)
Lemma run_app fuel rds1 rds2 : forall st tr1 tr2,
  run fuel st rds1 = Some tr1 ->
  run fuel (last (map snd tr1) st) rds2 = Some tr2 ->
  run fuel st (rds1 ++ rds2) = Some (tr1 ++ tr2).
Proof.
  induction rds1 as [|rd rds1 IH]; intros st tr1 tr2; simpl.
  - intros [= <-]. simpl. trivial.
  - destruct (loop fuel st rd) as [[cmd st']|]; [|discriminate].
    destruct (run fuel st' rds1) as [tr'|] eqn:Hr; [|discriminate].
    intros [= <-] H2.
    rewrite (IH st' tr' tr2 Hr); [reflexivity|].
    rewrite <- H2. f_equal. cbn [map snd]. symmetry. apply last_cons.
Qed.

(** X8.  In complete darkness (red and green counts 0) with both LEDs
    off, the controller does not hold the fallback levels: it writes 30
    and 19, dims them over eleven too-dark cycles down to 9 and 6, switches
    both LEDs off at the thirteenth cycle, and starts over; the same
    thirteen commands repeat for as long as the darkness lasts, with the
    fallback flag set throughout. *)
Theorem darkness_cycle fuel rd fb n :
  (1 <= fuel)%nat -> r rd = 0 -> g rd = 0 -> 0 <= b rd ->
  run fuel (mkState 0 0 fb) (repeat rd (n * 13))
  = Some (concat (repeat
       (map (fun yw => (mkCommand (fst yw) (snd yw),
                        mkState (fst yw) (snd yw) true))
          [(30, 19); (27, 17); (24, 15); (22, 14); (20, 13); (18, 12);
           (16, 11); (14, 10); (13, 9); (12, 8); (11, 7); (9, 6); (0, 0)])
       n)).
Proof.
  intros Hf Hr Hg Hb.
  assert (Hdark : forall f st, loop f st rd = loop f st (mkReading 0 0 0 0)).
  { intros f st. apply loop_ambient.
    - unfold ambientWhite. cbn [r g b]. rewrite Hr, Hg. f_equal.
      unfold Arduino.min.
      destruct (Z.ltb_spec 0 (b rd)); [reflexivity|].
      replace (b rd) with 0 by lia. reflexivity.
    - unfold ambientYellow. cbn [r g]. rewrite Hr, Hg. reflexivity. }
  assert (Hrun : forall k st,
            run fuel st (repeat rd k) = run fuel st (repeat (mkReading 0 0 0 0) k)).
  { induction k as [|k IH]; intro st; simpl; [reflexivity|].
    rewrite Hdark. destruct (loop fuel st (mkReading 0 0 0 0)) as [[cmd st']|];
      [|reflexivity]. rewrite IH. reflexivity. }
  rewrite Hrun. clear Hrun Hdark.
  set (period := map _ _).
  assert (Hper : forall fb', run fuel (mkState 0 0 fb')
                               (repeat (mkReading 0 0 0 0) 13) = Some period).
  { intros fb'. apply (run_fuel_mono 1 fuel _ _ _ Hf).
    destruct fb'; vm_compute; reflexivity. }
  revert fb. induction n as [|n IH]; intro fb; [reflexivity|].
  change (S n * 13)%nat with (13 + n * 13)%nat.
  rewrite repeat_app. cbn [repeat concat].
  apply run_app; [apply Hper|]. apply IH.
Qed.

Lemma darkness_cycle_witness :
  run 3 (mkState 0 0 false) (repeat (mkReading 0 0 500 20) (2 * 13))
  = Some (concat (repeat
       (map (fun yw => (mkCommand (fst yw) (snd yw),
                        mkState (fst yw) (snd yw) true))
          [(30, 19); (27, 17); (24, 15); (22, 14); (20, 13); (18, 12);
           (16, 11); (14, 10); (13, 9); (12, 8); (11, 7); (9, 6); (0, 0)])
       2)).
Proof.
  apply (darkness_cycle 3 (mkReading 0 0 500 20) false 2); simpl; lia.
Defined.

End ControllerModes.

(** ** Quotients of binary32 numbers are normalised *)

Section Quotient.

Local Abbreviation digits := F32.digits.

Lemma digits_24 p : 2 ^ 23 <= Zpos p < 2 ^ 24 -> digits p = 24.
Proof. intros H. apply digits_unique. exact H. Qed.

Lemma digits_25 p : 2 ^ 24 <= Zpos p < 2 ^ 25 -> digits p = 25.
Proof. intros H. apply digits_unique. exact H. Qed.

(** The last shift of [binary_round_aux]: a mantissa of 24 digits is
    kept, the mantissa [2^24] that rounding up can produce is halved. *)
Lemma last_shift m e :
  2 ^ 23 <= m <= 2 ^ 24 -> -149 <= e ->
  exists p e', shr_fexp F32.prec F32.emax m e loc_Exact
               = (Build_shr_record (Zpos p) false false, e') /\
               2 ^ 23 <= Zpos p < 2 ^ 24 /\ e <= e' <= e + 1.
Proof.
  intros Hm He. destruct m as [|p|p]; try lia.
  unfold shr_fexp. cbn [Zdigits2 shr_record_of_loc]. fold (digits p).
  destruct (Z.eq_dec (Zpos p) (2 ^ 24)) as [E|E].
  - change (2 ^ 24) with 16777216 in E. injection E as ->.
    change (digits 16777216) with 25.
    rewrite fexp_normal by lia. replace (25 + e - 24 - e) with 1 by lia.
    exists 8388608%positive, (e + 1). cbn. repeat split; lia.
  - rewrite (digits_24 p) by lia.
    rewrite fexp_normal by lia. replace (24 + e - 24 - e) with 0 by lia.
    exists p, e. cbn [shr]. repeat split; lia.
Qed.

(** Rounding a mantissa of 24 or 25 digits gives a normal number. *)
Lemma round_aux_normal q E l :
  2 ^ 23 <= q < 2 ^ 25 -> -149 <= E <= 100 ->
  exists m e, binary_round_aux F32.prec F32.emax false q E l
              = S754_finite false m e /\ 2 ^ 23 <= Zpos m < 2 ^ 24.
Proof.
  intros Hq HE. destruct q as [|p|p]; try lia.
  assert (Hfirst : exists mrs e1,
            shr_fexp F32.prec F32.emax (Zpos p) E l = (mrs, e1) /\
            2 ^ 23 <= shr_m mrs < 2 ^ 24 /\ E <= e1 <= E + 1).
  { unfold shr_fexp. cbn [Zdigits2]. fold (digits p).
    destruct (Z.lt_ge_cases (Zpos p) (2 ^ 24)) as [Hlt|Hge].
    - rewrite (digits_24 p) by lia.
      rewrite fexp_normal by lia. replace (24 + E - 24 - E) with 0 by lia.
      eexists _, _. split; [reflexivity|].
      split; [destruct l as [|[ | | ]]; cbn [shr_record_of_loc shr_m]; lia|lia].
    - rewrite (digits_25 p) by lia.
      rewrite fexp_normal by lia. replace (25 + E - 24 - E) with 1 by lia.
      eexists _, _. split; [reflexivity|]. split; [|lia].
      cbn [shr iter_pos].
      change (2 ^ 24) with 16777216 in *. change (2 ^ 25) with 33554432 in *.
      change (2 ^ 23) with 8388608.
      destruct l as [|[ | | ]]; cbn [shr_record_of_loc shr_1 orb];
        destruct p as [p'|p'|]; cbn [shr_m]; lia. }
  destruct Hfirst as (mrs & e1 & Hs1 & Hm1 & He1).
  unfold binary_round_aux. rewrite Hs1.
  assert (Hr : 2 ^ 23 <= round_nearest_even (shr_m mrs) (loc_of_shr_record mrs)
               <= 2 ^ 24).
  { unfold round_nearest_even.
    destruct (loc_of_shr_record mrs) as [|[ | | ]]; try lia.
    destruct (Z.even (shr_m mrs)); lia. }
  destruct (last_shift _ e1 Hr ltac:(lia)) as (m & e2 & Hs2 & Hm2 & He2).
  rewrite Hs2. cbn [shr_m].
  replace (e2 <=? F32.emax - F32.prec) with true
    by (symmetry; apply Z.leb_le; unfold F32.emax, F32.prec; lia).
  exists m, e2. split; [reflexivity|exact Hm2].
Qed.

(** The quotient of two positive numbers of halves is a positive normal
    number. *)
Lemma div_half_units_normal a b :
  0 < a < 2 ^ 24 -> 0 < b < 2 ^ 24 ->
  exists m e, F32.div (F32.half_units a) (F32.half_units b)
              = S754_finite false m e /\ 2 ^ 23 <= Zpos m < 2 ^ 24.
Proof.
  intros Ha Hb.
  destruct (half_units_repr a Ha) as (ma & ea & -> & Hda & Hea & _).
  destruct (half_units_repr b Hb) as (mb & eb & -> & Hdb & Heb & _).
  pose proof (digits_bounds ma) as Ba. rewrite Hda in Ba.
  pose proof (digits_bounds mb) as Bb. rewrite Hdb in Bb.
  change (2 ^ (24 - 1)) with 8388608 in *. change (2 ^ 24) with 16777216 in *.
  unfold F32.div, SFdiv, SFdiv_core_binary.
  cbn [Zdigits2 xorb]. fold (digits ma). fold (digits mb). rewrite Hda, Hdb.
  replace (24 + ea - (24 + eb)) with (ea - eb) by lia.
  rewrite fexp_normal by lia.
  replace (Z.min (ea - eb - 24) (ea - eb)) with (ea - eb - 24) by lia.
  replace (ea - eb - (ea - eb - 24)) with 24 by lia.
  cbv iota. rewrite Z.shiftl_mul_pow2 by lia.
  pose proof (Z.div_eucl_eq (Zpos ma * 2 ^ 24) (Zpos mb) ltac:(lia)) as Heq.
  pose proof (Z.mod_pos_bound (Zpos ma * 2 ^ 24) (Zpos mb) ltac:(lia)) as Hbd.
  unfold Z.modulo in Hbd.
  destruct (Z.div_eucl (Zpos ma * 2 ^ 24) (Zpos mb)) as [q rm].
  change (2 ^ 24) with 16777216 in *.
  apply round_aux_normal.
  - change (2 ^ 23) with 8388608. change (2 ^ 25) with 33554432. nia.
  - lia.
Qed.

Lemma binary_round_nonneg m e :
  F32.leb F32.zero (binary_round F32.prec F32.emax false m e) = true.
Proof.
  unfold binary_round. destruct (shl_align m e _) as [mz ez].
  apply binary_round_aux_nonneg. lia.
Qed.

(** The difference of two positive normal numbers, the larger one first,
    is not negative. *)
Lemma sub_normal_nonneg mx ex my ey :
  2 ^ 23 <= Zpos mx < 2 ^ 24 -> 2 ^ 23 <= Zpos my < 2 ^ 24 ->
  F32.ltb (S754_finite false my ey) (S754_finite false mx ex) = true ->
  F32.leb F32.zero
    (F32.sub (S754_finite false mx ex) (S754_finite false my ey)) = true.
Proof.
  intros Hx Hy Hlt.
  change (2 ^ 23) with 8388608 in *. change (2 ^ 24) with 16777216 in *.
  unfold F32.sub, SFsub. cbn [cond_Zopp].
  set (ez := Z.min ex ey).
  rewrite !shl_align_value by (unfold ez; lia).
  assert (Hd : 0 < Zpos mx * 2 ^ (ex - ez) - Zpos my * 2 ^ (ey - ez)).
  { unfold F32.ltb, SFltb, SFcompare in Hlt.
    destruct (Z.compare_spec ey ex) as [E|E|E]; try discriminate Hlt.
    - subst ey. replace (ex - ez) with 0 by (unfold ez; lia).
      fold (Pos.compare my mx) in Hlt.
      destruct (Pos.compare_spec my mx) as [E'|E'|E']; try discriminate Hlt.
      apply Pos2Z.pos_lt_pos in E'. lia.
    - replace (ey - ez) with 0 by (unfold ez; lia).
      replace (ex - ez) with (ex - ey) by (unfold ez; lia).
      assert (2 <= 2 ^ (ex - ey)).
      { change 2 with (2 ^ 1) at 1. apply Z.pow_le_mono_r; lia. }
      nia. }
  destruct (Zpos mx * 2 ^ (ex - ez) - Zpos my * 2 ^ (ey - ez)) as [|d|d];
    try lia.
  unfold binary_normalize. apply binary_round_nonneg.
Qed.

Lemma to_Z_nonneg x : F32.leb F32.zero x = true -> 0 <= F32.to_Z x.
Proof.
  destruct x as [s|s| |s m e]; try (intros _; simpl; lia).
  destruct s; [discriminate|]. intros _. unfold F32.to_Z. cbn [cond_Zopp].
  apply Z.shiftl_nonneg. lia.
Qed.

(** The Arduino [round] of a number that is not negative is not
    negative. *)
Lemma round_nonneg x : F32.leb F32.zero x = true -> 0 <= Arduino.round x.
Proof.
  intros Hx. unfold Arduino.round. rewrite Hx. apply to_Z_nonneg.
  destruct x as [s|s| |s m e]; try discriminate.
  - reflexivity.
  - destruct s; [discriminate|reflexivity].
  - destruct s; [discriminate|].
    unfold F32.add, F32.half, SFadd. cbn [cond_Zopp].
    match goal with
    | |- context [binary_normalize _ _ (Zpos ?a + Zpos ?b) ?e _] =>
        change (Zpos a + Zpos b) with (Zpos (a + b))
    end.
    unfold binary_normalize. apply binary_round_nonneg.
Qed.

Lemma mul_finite_nonneg m e x :
  F32.leb F32.zero x = true ->
  F32.leb F32.zero (F32.mul (S754_finite false m e) x) = true.
Proof.
  intros Hx. rewrite mul_comm. apply mul_nonneg_finite. exact Hx.
Qed.

End Quotient.

(** ** The sketch: the comfort branch and the fallback flag *)

Section ComfortBranch.
Import LED.

(** The nudge of the comfort branch is never negative. *)
Lemma comfort_adjust_nonneg d :
  F32.leb F32.zero d = true ->
  0 <= Arduino.round (F32.mul (F32.mul gain d) (F32.of_Z maxLEDIntensity)).
Proof.
  intros Hd. apply round_nonneg.
  change (F32.of_Z maxLEDIntensity) with (S754_finite false 16711680 (-16)).
  apply mul_nonneg_finite. unfold gain. apply mul_finite_nonneg. exact Hd.
Qed.

(** X15.  The comfort branch never dims an LED: when a cycle takes it,
    both levels written are at least the previous levels (one of them is
    the previous level itself, see C9).  Together with X5: levels go up in
    the comfort band only and down outside it only. *)
Theorem comfort_never_dims fuel st rd :
  state_ok st -> reading_ok rd ->
  isDarkness st rd = false ->
  isTooDark rd || tooBrightAfterOverride st rd = false ->
  exists cmd st',
    loop fuel st rd = Some (cmd, st') /\
    prevYellowLED st <= yellowLevel cmd /\
    prevWhiteLED st <= whiteLevel cmd.
Proof.
  intros Hst Hrd Hd Hz. unfold loop. rewrite Hd, Hz. unfold finish.
  eexists _, _. split; [reflexivity|]. cbn [yellowLevel whiteLevel].
  pose proof (halves_bounds st rd Hst Hrd) as (_ & Hy & Hw & Ht & _).
  rewrite (isDarkness_exact st rd Hst Hrd) in Hd. apply Z.eqb_neq in Hd.
  assert (Hup : forall prev k, level_ok prev -> 0 <= k ->
                  prev <= Arduino.constrain (prev + k) 0 maxLEDIntensity).
  { intros prev k [Hp0 Hp1] Hk. unfold Arduino.constrain.
    destruct (Z.ltb_spec (prev + k) 0); [lia|].
    destruct (Z.gtb_spec (prev + k) maxLEDIntensity); lia. }
  destruct Hst as [Hsy Hsw].
  (* the shape of the ratio *)
  assert (Hratio :
    currentYellowRatio st rd = F32.zero \/
    exists m e, currentYellowRatio st rd = S754_finite false m e /\
                2 ^ 23 <= Zpos m < 2 ^ 24).
  { unfold currentYellowRatio.
    rewrite (total_exact st rd (conj Hsy Hsw) Hrd),
            (YOI_exact st rd (conj Hsy Hsw) Hrd).
    assert (Hpos : F32.ltb F32.zero
                     (F32.half_units (yellowHalves st rd + whiteHalves st rd))
                   = true).
    { change F32.zero with (F32.half_units 0).
      rewrite ltb_half_units by (change (2 ^ 24) with 16777216 in *; lia).
      apply Z.ltb_lt. lia. }
    rewrite Hpos.
    destruct (Z.eq_dec (yellowHalves st rd) 0) as [E|E].
    - left. rewrite E.
      destruct (half_units_repr (0 + whiteHalves st rd)) as (m & e & Hm & _);
        [lia|].
      rewrite Hm. reflexivity.
    - right. apply div_half_units_normal; lia. }
  unfold comfort.
  destruct (F32.ltb (currentYellowRatio st rd) band_low) eqn:Hlo.
  - cbn [fst snd]. split; [|lia]. apply Hup; [exact Hsy|].
    apply comfort_adjust_nonneg.
    destruct Hratio as [-> |(m & e & Hr & Hm)]; [reflexivity|].
    rewrite Hr in *.
    apply sub_normal_nonneg; [vm_compute; split; [discriminate|reflexivity]
                             |exact Hm|].
    apply (ltb_trans _ band_low); [exact Hlo|reflexivity].
  - destruct (F32.ltb band_high (currentYellowRatio st rd)) eqn:Hhi;
      cbn [fst snd]; [|lia].
    split; [lia|]. apply Hup; [exact Hsw|].
    apply comfort_adjust_nonneg.
    destruct Hratio as [Hr0 |(m & e & Hr & Hm)].
    + rewrite Hr0 in Hhi. discriminate Hhi.
    + rewrite Hr in *.
      apply sub_normal_nonneg; [exact Hm
                               |vm_compute; split; [discriminate|reflexivity]|].
      apply (ltb_trans _ band_high); [reflexivity|exact Hhi].
Qed.

Lemma comfort_never_dims_witness :
  exists cmd st',
    loop 0 (mkState 26 15 false) (mkReading 300 300 300 900) = Some (cmd, st') /\
    26 <= yellowLevel cmd /\ 15 <= whiteLevel cmd.
Proof.
  apply (comfort_never_dims 0 (mkState 26 15 false) (mkReading 300 300 300 900)).
  - unfold state_ok, level_ok, maxLEDIntensity. simpl. lia.
  - unfold reading_ok, uint16. simpl. lia.
  - vm_compute. reflexivity.
  - vm_compute. reflexivity.
Defined.

(** X16.  The fallback flag after a completed cycle: it is set exactly
    when the reading was too dark and either the cycle was a darkness
    cycle or the flag was set before.  So a reading that is not too dark
    always clears it, and the override of a too-bright reading, which
    needs the flag, cannot act in two cycles in a row. *)
Theorem fallback_flag_update fuel st rd cmd st' :
  state_ok st -> reading_ok rd ->
  loop fuel st rd = Some (cmd, st') ->
  inFallbackMode st' = isTooDark rd && (isDarkness st rd || inFallbackMode st) /\
  (isTooBright rd = true -> tooBrightAfterOverride st' rd = true).
Proof.
  intros Hst Hrd Hl.
  assert (Hflag : inFallbackMode st'
                  = isTooDark rd && (isDarkness st rd || inFallbackMode st)).
  { assert (Hdd : isDarkness st rd = true -> isTooDark rd = true).
    { pose proof (halves_bounds st rd Hst Hrd) as (_ & Hy & Hw & _ & Hle).
      rewrite (isDarkness_exact st rd Hst Hrd), (isTooDark_exact rd Hrd).
      rewrite Z.eqb_eq. intros H. apply Z.ltb_lt.
      pose proof (ambientHalves_bounds rd Hrd). lia. }
    revert Hl. unfold loop, finish, exitFallback.
    destruct (isDarkness st rd) eqn:Hd.
    - rewrite (Hdd eq_refl). intros [= _ <-]. reflexivity.
    - destruct (isTooDark rd) eqn:Htd; cbn [orb negb andb].
      + destruct (downscale fuel st); [|discriminate].
        intros [= _ <-]. reflexivity.
      + destruct (tooBrightAfterOverride st rd);
          [destruct (downscale fuel st); [|discriminate]|];
          intros [= _ <-]; reflexivity. }
  split; [exact Hflag|]. intros Hb.
  assert (Hex : isTooDark rd = false).
  { rewrite (isTooBright_exact rd Hrd) in Hb. apply Z.ltb_lt in Hb.
    rewrite (isTooDark_exact rd Hrd). apply Z.ltb_ge. lia. }
  unfold tooBrightAfterOverride. rewrite Hflag, Hex, Hb. reflexivity.
Qed.

Lemma fallback_flag_update_witness :
  inFallbackMode (mkState 33 19 false)
  = isTooDark (mkReading 2000 2000 2000 6000)
    && (isDarkness (mkState 30 19 true) (mkReading 2000 2000 2000 6000)
        || inFallbackMode (mkState 30 19 true)) /\
  (isTooBright (mkReading 2000 2000 2000 6000) = true ->
   tooBrightAfterOverride (mkState 33 19 false)
     (mkReading 2000 2000 2000 6000) = true).
Proof.
  apply (fallback_flag_update 0 (mkState 30 19 true)
           (mkReading 2000 2000 2000 6000) (mkCommand 33 19)).
  - unfold state_ok, level_ok, maxLEDIntensity. simpl. lia.
  - unfold reading_ok, uint16. simpl. lia.
  - vm_compute. reflexivity.
Defined.

End ComfortBranch.
